(** * gomajor: module-coordinate algebra and version resolution

    A shallow embedding of the [packages] helpers (module path algebra,
    direct-dependency enumeration) and of the [get] / [list] command
    handlers of gomajor, together with the properties of them that the
    design document states.

    Go strings are byte sequences; they are modelled by [string] (a list
    of 8-bit [ascii]).  Go [int] values that index strings are modelled
    by [Z]; every index computed below stays far from the 64-bit range,
    so no wrap-around is involved. *)

From Stdlib Require Import String Ascii ZArith Lia Bool.
From stdpp Require Import base option list gmap strings.

Local Open Scope string_scope.
Local Open Scope list_scope.
Local Open Scope Z_scope.

(* ===================================================================== *)
(** ** The Go standard library's [strings] functions used by the code     *)
(* ===================================================================== *)

Module strings.

(** [len(s)] *)
Definition len (s : string) : Z := Z.of_nat (String.length s).

(** [s[i:]]; the callers below only slice inside [0 .. len s]. *)
Fixpoint drop_bytes (n : nat) (s : string) : string :=
  match n, s with
  | O, _ => s
  | S n', String _ s' => drop_bytes n' s'
  | S _, EmptyString => EmptyString
  end.

(** [s[:i]] *)
Fixpoint take_bytes (n : nat) (s : string) : string :=
  match n, s with
  | O, _ => EmptyString
  | S n', String c s' => String c (take_bytes n' s')
  | S _, EmptyString => EmptyString
  end.

Definition slice_from (s : string) (i : Z) : string := drop_bytes (Z.to_nat i) s.
Definition slice_to (s : string) (i : Z) : string := take_bytes (Z.to_nat i) s.
Definition slice (s : string) (i j : Z) : string := slice_from (slice_to s j) i.

(** [s[i]], with byte 0 standing for an index out of range (never read
    below: every access is guarded by a bounds test). *)
Definition at_ (s : string) (i : Z) : ascii :=
  if i <? 0 then zero
  else match String.get (Z.to_nat i) s with
       | Some c => c
       | None => zero
       end.

(** [strings.HasPrefix(s, prefix)] *)
Fixpoint HasPrefix (s prefix : string) {struct prefix} : bool :=
  match prefix, s with
  | EmptyString, _ => true
  | String _ _, EmptyString => false
  | String c prefix', String d s' => Ascii.eqb c d && HasPrefix s' prefix'
  end.

(** [strings.HasSuffix(s, suffix)] *)
Definition HasSuffix (s suffix : string) : bool :=
  (len suffix <=? len s) && String.eqb (slice_from s (len s - len suffix)) suffix.

(** [strings.TrimPrefix(s, prefix)] *)
Definition TrimPrefix (s prefix : string) : string :=
  if HasPrefix s prefix then slice_from s (len prefix) else s.

(** [strings.Index(s, substr)]: the first position where [substr]
    occurs, or -1. *)
Fixpoint index_from (s substr : string) (i : Z) : Z :=
  if HasPrefix s substr then i
  else match s with
       | EmptyString => -1
       | String _ s' => index_from s' substr (i + 1)
       end.

Definition Index (s substr : string) : Z := index_from s substr 0.

(** [strings.Contains(s, substr)] *)
Definition Contains (s substr : string) : bool := 0 <=? Index s substr.

(** [strings.SplitN(s, sep, 2)] for a non-empty separator: at most two
    parts, cut at the first occurrence of [sep]. *)
Definition SplitN2 (s sep : string) : list string :=
  let m := Index s sep in
  if m <? 0 then [s]
  else [slice_to s m; slice_from s (m + len sep)].

End strings.

(* ===================================================================== *)
(** ** golang.org/x/mod/semver: the validity test and [Major]             *)
(* ===================================================================== *)

Module semver.
Import strings.

Definition is_digit (c : ascii) : bool :=
  let n := N_of_ascii c in ((48 <=? n) && (n <=? 57))%N.

Definition isIdentChar (c : ascii) : bool :=
  let n := N_of_ascii c in
  ((65 <=? n) && (n <=? 90) || (97 <=? n) && (n <=? 122)
   || (48 <=? n) && (n <=? 57) || (n =? 45))%N.

(** Number of leading decimal digits. *)
Fixpoint digits (s : string) : nat :=
  match s with
  | String c s' => if is_digit c then S (digits s') else O
  | EmptyString => O
  end.

(** [isBadNum]: all digits, longer than one byte, leading zero. *)
Definition isBadNum (v : string) : bool :=
  let i := Z.of_nat (digits v) in
  (i =? len v) && (1 <? i) && Ascii.eqb (at_ v 0) "0"%char.

(** [parseInt]: [(t, rest, ok)] *)
Definition parseInt (v : string) : string * string * bool :=
  match v with
  | EmptyString => ("", "", false)
  | String c _ =>
      if negb (is_digit c) then ("", "", false)
      else
        let i := Z.of_nat (digits v) in
        if Ascii.eqb c "0"%char && negb (i =? 1) then ("", "", false)
        else (slice_to v i, slice_from v i, true)
  end.

(** The scanning loop shared by [parsePrerelease] and [parseBuild]:
    [rest] is [v[i:]]; [stop_plus] makes a ['+'] end the scan, and
    [nums] turns on the leading-zero test of numeric identifiers.
    The result is the final [(i, start)], or [None] where the Go code
    returns early with [ok = false]. *)
Fixpoint scan_idents (stop_plus nums : bool) (v rest : string) (i start : Z)
  : option (Z * Z) :=
  match rest with
  | EmptyString => Some (i, start)
  | String c rest' =>
      if stop_plus && Ascii.eqb c "+"%char then Some (i, start)
      else if negb (isIdentChar c) && negb (Ascii.eqb c "."%char) then None
      else if Ascii.eqb c "."%char then
        if (start =? i) || (nums && isBadNum (slice v start i)) then None
        else scan_idents stop_plus nums v rest' (i + 1) (i + 1)
      else scan_idents stop_plus nums v rest' (i + 1) start
  end.

Definition parsePrerelease (v : string) : string * string * bool :=
  match v with
  | String "-" rest =>
      match scan_idents true true v rest 1 1 with
      | Some (i, start) =>
          if (start =? i) || isBadNum (slice v start i) then ("", "", false)
          else (slice_to v i, slice_from v i, true)
      | None => ("", "", false)
      end
  | _ => ("", "", false)
  end.

Definition parseBuild (v : string) : string * string * bool :=
  match v with
  | String "+" rest =>
      match scan_idents false false v rest 1 1 with
      | Some (i, start) =>
          if start =? i then ("", "", false)
          else (slice_to v i, slice_from v i, true)
      | None => ("", "", false)
      end
  | _ => ("", "", false)
  end.

Record parsed := mkParsed {
  major : string; minor : string; patch : string;
  short : string; prerelease : string; build : string
}.

(** The optional ["-prerelease"] and ["+build"] tail of a version, and
    the final test that nothing is left over. *)
Definition parse_tail (ma mi pa v : string) : parsed * bool :=
  let '(pre, v1, ok1) :=
    match v with
    | String "-" _ => parsePrerelease v
    | _ => ("", v, true)
    end in
  if negb ok1 then (mkParsed ma mi pa "" pre "", false)
  else
    let '(bld, v2, ok2) :=
      match v1 with
      | String "+" _ => parseBuild v1
      | _ => ("", v1, true)
      end in
    if negb ok2 then (mkParsed ma mi pa "" pre bld, false)
    else (mkParsed ma mi pa "" pre bld, String.eqb v2 "").

(** [parse]: a version is ["v" MAJOR ["." MINOR ["." PATCH [tail]]]]. *)
Definition parse (v : string) : parsed * bool :=
  match v with
  | String "v" v0 =>
      let '(ma, v1, ok) := parseInt v0 in
      if negb ok then (mkParsed ma "" "" "" "" "", false)
      else match v1 with
           | EmptyString => (mkParsed ma "0" "0" ".0.0" "" "", true)
           | String "." v1' =>
               let '(mi, v2, ok) := parseInt v1' in
               if negb ok then (mkParsed ma mi "" "" "" "", false)
               else match v2 with
                    | EmptyString => (mkParsed ma mi "0" ".0" "" "", true)
                    | String "." v2' =>
                        let '(pa, v3, ok) := parseInt v2' in
                        if negb ok then (mkParsed ma mi pa "" "" "", false)
                        else parse_tail ma mi pa v3
                    | _ => (mkParsed ma mi "" "" "" "", false)
                    end
           | _ => (mkParsed ma "" "" "" "" "", false)
           end
  | _ => (mkParsed "" "" "" "" "" "", false)
  end.

(** [semver.IsValid(v)] *)
Definition IsValid (v : string) : bool := snd (parse v).

(** [semver.Major(v)]: ["v2.1.0"] gives ["v2"]; [""] for an invalid [v]. *)
Definition Major (v : string) : string :=
  let '(pv, ok) := parse v in
  if negb ok then "" else slice_to v (1 + len (major pv)).

End semver.

(* ===================================================================== *)
(** ** golang.org/x/mod/module: [SplitPathVersion]                        *)
(* ===================================================================== *)

Module module.
Import strings.

(** The backward scan [for i > 0 && (path[i-1] == '.' || digit)]:
    returns the final [i] and whether a dot was crossed. *)
Fixpoint scan_back (dots : bool) (path : string) (i : nat) (dot : bool) : nat * bool :=
  match i with
  | O => (O, dot)
  | S j =>
      let c := at_ path (Z.of_nat j) in
      if dots && Ascii.eqb c "."%char then scan_back dots path j true
      else if semver.is_digit c then scan_back dots path j dot
      else (i, dot)
  end.

Definition splitGopkgIn (path : string) : string * string * bool :=
  if negb (HasPrefix path "gopkg.in/") then (path, "", false)
  else
    let i0 := if HasSuffix path "-unstable" then len path - len "-unstable" else len path in
    let i := Z.of_nat (fst (scan_back false path (Z.to_nat i0) false)) in
    if (i <=? 1) || negb (Ascii.eqb (at_ path (i - 1)) "v"%char)
       || negb (Ascii.eqb (at_ path (i - 2)) "."%char)
    then (path, "", false)
    else
      let prefix := slice_to path (i - 2) in
      let pathMajor := slice_from path (i - 2) in
      if (len pathMajor <=? 2)
         || Ascii.eqb (at_ pathMajor 2) "0"%char && negb (String.eqb pathMajor ".v0")
      then (path, "", false)
      else (prefix, pathMajor, true).

(** [module.SplitPathVersion(path)]: [(prefix, pathMajor, ok)] *)
Definition SplitPathVersion (path : string) : string * string * bool :=
  if HasPrefix path "gopkg.in/" then splitGopkgIn path
  else
    let '(n, dot) := scan_back true path (String.length path) false in
    let i := Z.of_nat n in
    if (i <=? 1) || (i =? len path) || negb (Ascii.eqb (at_ path (i - 1)) "v"%char)
       || negb (Ascii.eqb (at_ path (i - 2)) "/"%char)
    then (path, "", true)
    else
      let prefix := slice_to path (i - 2) in
      let pathMajor := slice_from path (i - 2) in
      if dot || (len pathMajor <=? 2) || Ascii.eqb (at_ pathMajor 2) "0"%char
         || String.eqb pathMajor "/v1"
      then (path, "", false)
      else (prefix, pathMajor, true).

End module.

(* ===================================================================== *)
(** ** Package [packages]: the module-path algebra                        *)
(* ===================================================================== *)

(** Go's [error] values: messages built by [fmt.Errorf] or handed back by
    a collaborator, and the sentinel [importpaths.ErrSkip], which the
    code only compares and returns; its text is never printed by the
    handlers below, so [error_msg] gives it a name only. *)
Inductive error : Type :=
| ErrorString (msg : string)
| ErrSkip.

Definition error_msg (e : error) : string :=
  match e with
  | ErrorString msg => msg
  | ErrSkip => "skip"
  end.

Module packages.
Import strings.

Record Package := mkPackage {
  Version : string;
  PkgDir : string;
  ModPrefix : string
}.

(** What [packages.Load] (golang.org/x/tools/go/packages) reports about
    the module of a loaded package; [Replace] is a pointer in Go, and
    only its being nil or not is read.  [ModVersion] is the field
    [Version] of the Go struct. *)
#[warnings="-register-all"]
Inductive Module : Type := mkModule {
  Path : string;
  ModVersion : string;
  Indirect : bool;
  Replace : option Module;
  Main : bool
}.

(** A loaded package; under [NeedModule] only [pkg.Module] is filled,
    and it is nil for packages outside any module. *)
Record LoadedPackage := mkLoaded { PkgModule : option Module }.

(** [JoinPathMajor(path, major)] *)
Definition JoinPathMajor (path major : string) : string :=
  if HasPrefix path "gopkg.in" then
    let major := TrimPrefix major "." in
    path +:+ "." +:+ major
  else
    let major := TrimPrefix major "/" in
    if String.eqb major "v0" || String.eqb major "v1" || String.eqb major "" then path
    else
      let path := if negb (HasSuffix path "/") then path +:+ "/" else path in
      path +:+ major.

(** [pkg.Incompatible()] *)
Definition Incompatible (pkg : Package) : bool :=
  Contains (Version pkg) "+incompatible".

(** [pkg.ModPath()] *)
Definition ModPath (pkg : Package) : string :=
  if Incompatible pkg && negb (HasPrefix (ModPrefix pkg) "gopkg.in") then ModPrefix pkg
  else JoinPathMajor (ModPrefix pkg) (semver.Major (Version pkg)).

(** [pkg.FindModPath(pkgpath)]; the slices stay in range, since
    [modpathlen] never exceeds [len(pkgpath)]. *)
Definition FindModPath (pkg : Package) (pkgpath : string) : string * bool :=
  if negb (HasPrefix pkgpath (ModPrefix pkg)) then ("", false)
  else
    let modpathlen := len (ModPrefix pkg) in
    let modpathlen :=
      if HasPrefix (slice_from pkgpath modpathlen) "/" then modpathlen + 1 else modpathlen in
    let idx := Index (slice_from pkgpath modpathlen) "/" in
    let modpathlen := if 0 <=? idx then modpathlen + idx else len pkgpath in
    let '(_, major, ok) := module.SplitPathVersion (slice_to pkgpath modpathlen) in
    if ok then (JoinPathMajor (ModPrefix pkg) major, true)
    else (ModPrefix pkg, true).

(** [SplitSpec(spec)] *)
Definition SplitSpec (spec : string) : string * string :=
  match SplitN2 spec "@" with
  | [path; version] => (path, version)
  | _ => (spec, "")
  end.

(** One iteration of the loop of [Direct]: the state is the slice
    [direct] built so far and the map [seen]. *)
Definition Direct_step (st : list Package * gmap string bool) (pkg : LoadedPackage)
  : list Package * gmap string bool :=
  let '(direct, seen) := st in
  match PkgModule pkg with
  | Some m =>
      if negb (Indirect m) && negb (bool_decide (is_Some (Replace m)))
         && negb (Main m) && negb (default false (seen !! Path m))
      then
        let modprefix :=
          let '(prefix, _, ok) := module.SplitPathVersion (Path m) in
          if ok then prefix else Path m in
        (direct ++ [mkPackage (ModVersion m) "" modprefix], <[Path m := true]> seen)
      else st
  | None => st
  end.

Definition Direct_loop (pkgs : list LoadedPackage) : list Package :=
  fst (foldl Direct_step ([], ∅) pkgs).

(** [Direct(dir)], given the outcome of [packages.Load(&cfg, "all")]. *)
Definition Direct (Load : string -> error + list LoadedPackage) (dir : string)
  : error + list Package :=
  match Load dir with
  | inl err => inl err
  | inr pkgs => inr (Direct_loop pkgs)
  end.

End packages.

(** The modules [Direct] keeps (not indirect, not replaced, not the main
    module) and the record it builds for one. *)
Definition direct_eligible (m : packages.Module) : bool :=
  negb (packages.Indirect m) && negb (bool_decide (is_Some (packages.Replace m)))
  && negb (packages.Main m).

Definition direct_record (m : packages.Module) : packages.Package :=
  packages.mkPackage (packages.ModVersion m) ""
    (let '(prefix, _, ok) := module.SplitPathVersion (packages.Path m) in
     if ok then prefix else packages.Path m).

(** The loop invariant of [Direct]: the records built so far come, one
    each and in order, from modules [mods] with pairwise distinct paths;
    [seen] holds exactly those paths; and [mods] covers every eligible
    module met so far. *)
Definition Direct_inv (pkgs : list packages.LoadedPackage)
    (st : list packages.Package * gmap string bool) : Prop :=
  exists mods : list packages.Module,
    fst st = direct_record <$> mods
    /\ NoDup (packages.Path <$> mods)
    /\ (forall p, default false (snd st !! p) = true <-> p ∈ packages.Path <$> mods)
    /\ (forall m, m ∈ mods -> direct_eligible m = true /\ packages.mkLoaded (Some m) ∈ pkgs)
    /\ (forall m, packages.mkLoaded (Some m) ∈ pkgs -> direct_eligible m = true ->
                  packages.Path m ∈ packages.Path <$> mods).

(** The delimiter that starts an encoded major version, as the design
    document names it: a dot under the gopkg.in convention, a slash
    otherwise. *)
Definition convention_delimiter (path : string) : string :=
  if strings.HasPrefix path "gopkg.in" then "." else "/".

(* ===================================================================== *)
(** ** Package [main]: the command handlers                               *)
(* ===================================================================== *)

(** What a handler does to the outside: lines written to the two output
    streams (without their final newline) and commands run. *)
Inductive event : Type :=
| Stdout (line : string)
| Stderr (line : string)
| Exec (dir : string) (argv : list string).

(** [importpaths.RewriteModuleOptions]; [OnRewrite] receives the position
    (already formatted), the old and the new path. *)
Record RewriteModuleOptions := mkOptions {
  opt_PkgDir : string;
  opt_Prefix : string;
  opt_NewVersion : string;
  opt_NewPrefix : string;
  OnRewrite : string -> string -> string -> list event
}.

(** A direct dependency as [listcmd] reads it: [dep.Path], [dep.Version]. *)
Record Dependency := mkDep { dep_Path : string; dep_Version : string }.

(** The flags of [gomajor get] and [gomajor list] after [fset.Parse]. *)
Record GetFlags := mkGetFlags {
  get_pre : bool; get_rewrite : bool; get_goget : bool;
  get_dir : string; get_cached : bool; get_args : list string
}.

Record ListFlags := mkListFlags {
  list_pre : bool; list_dir : string; list_cached : bool; list_major : bool
}.

(** A callback handed to [importpaths.Rewrite]: from the file name and an
    import path to the lines it prints and its [(string, error)] result. *)
Definition rewrite_fn : Type := string -> string -> list event * (string * option error).

(** The collaborators of the handlers.  Their code is outside the files
    verified here, so the handlers are verified for every behaviour of
    them: the module proxy client ([internal/modproxy]), the path helpers
    of the later [internal/packages], the import rewriter
    ([internal/importpaths]), [semver.Compare] and
    [module.MatchPrefixPatterns], the environment and [exec]. *)
Record World := mkWorld {
  ProxyModule : Type;
  mod_Path : ProxyModule -> string;
  MaxVersion : ProxyModule -> string -> bool -> string;
  Latest : string -> bool -> error + ProxyModule;
  QueryPackage : string -> bool -> error + ProxyModule;
  Direct : string -> error + list Dependency;
  ModPrefix : string -> string;
  SplitPath : string -> string -> string * string * bool;
  JoinPath : string -> string -> string -> string;
  Compare : string -> string -> Z;
  MatchPrefixPatterns : string -> string -> bool;
  Getenv : string -> string;
  Run : string -> list string -> option error;
  RewriteModule : string -> RewriteModuleOptions -> list event * option error;
  Rewrite : string -> rewrite_fn -> list event * option error
}.

(** *** A handler's computation: a trace of events and an error or a value *)

Definition M (A : Type) : Type := list event * (error + A).

Definition ret {A} (a : A) : M A := ([], inr a).
Definition fail {A} (e : error) : M A := ([], inl e).
Definition emit (ev : event) : M unit := ([ev], inr tt).
Definition lift {A} (r : error + A) : M A := ([], r).

Definition bind {A B} (m : M A) (k : A -> M B) : M B :=
  match m with
  | (tr, inl e) => (tr, inl e)
  | (tr, inr a) => let '(tr', r) := k a in (tr ++ tr', r)
  end.

(** A call whose only result is an [error] that may be nil. *)
Definition check (r : list event * option error) : M unit :=
  match r with
  | (tr, Some e) => (tr, inl e)
  | (tr, None) => (tr, inr tt)
  end.

Notation "x <- m ;; k" := (bind m (fun x => k))
  (at level 100, m at next level, right associativity).
Notation "m ;;; k" := (bind m (fun _ => k))
  (at level 100, right associativity).

(** The [error] a handler returns: [None] is Go's nil. *)
Definition returned {A} (m : M A) : option error :=
  match snd m with
  | inl e => Some e
  | inr _ => None
  end.

Definition trace {A} (m : M A) : list event := fst m.

Section Handlers.
Context (W : World).

(** *** [listcmd] (main.go) *)

(** The function handed to [group.Go] for one dependency: its output
    and its return value. *)
Definition list_task (fl : ListFlags) (dep : Dependency) : list event * option error :=
  match Latest W (dep_Path dep) (list_cached fl) with
  | inl err =>
      ([Stderr (dep_Path dep +:+ ": failed: " +:+ error_msg err)], None)
  | inr m =>
      let v := MaxVersion W m "" (list_pre fl) in
      if list_major fl
         && (Compare W (semver.Major v) (semver.Major (dep_Version dep)) <=? 0)
      then ([], None)
      else if Compare W v (dep_Version dep) <=? 0 then ([], None)
      else ([Stdout (dep_Path dep +:+ ": " +:+ dep_Version dep
                     +:+ " [latest " +:+ v +:+ "]")], None)
  end.

(** The dependencies for which [listcmd] starts a task, in loop order. *)
Definition list_started (deps : list Dependency) : list Dependency :=
  filter (fun dep => MatchPrefixPatterns W (Getenv W "GOPRIVATE") (dep_Path dep) = false) deps.

(** [errgroup.Group]: every function passed to [Go] runs to its end
    (the limit only delays its start), and [Wait] returns the first
    non-nil error in the order in which the functions finished. *)
Fixpoint group_Wait (results : list (option error)) : option error :=
  match results with
  | [] => None
  | Some e :: _ => Some e
  | None :: rest => group_Wait rest
  end.

(** The group's outcome when the tasks finish in the order [finished];
    each task writes at most one line, so the output is the lines in
    that order. *)
Definition group_run (fl : ListFlags) (finished : list Dependency) : M unit :=
  check (concat (map (fun dep => fst (list_task fl dep)) finished),
         group_Wait (map (fun dep => snd (list_task fl dep)) finished)).

(** The runs of [listcmd]: either [packages.Direct] fails, or the tasks
    started for the dependencies finish in some order. *)
Inductive listcmd (fl : ListFlags) : M unit -> Prop :=
| listcmd_direct_failed err :
    Direct W (list_dir fl) = inl err ->
    listcmd fl (fail err)
| listcmd_group deps finished :
    Direct W (list_dir fl) = inr deps ->
    Permutation finished (list_started deps) ->
    listcmd fl (group_run fl finished).

(** *** [getcmd] (main.go) *)

(** The [switch query] of [getcmd]: the target version and the query
    string used from there on. *)
Definition getcmd_version (fl : GetFlags) (m : ProxyModule W) (query : string)
  : M (string * string) :=
  if String.eqb query "" then
    ret (MaxVersion W m "" (get_pre fl), query)
  else if String.eqb query "latest" then
    latest <- lift (Latest W (mod_Path W m) (get_cached fl)) ;;
    let version := MaxVersion W latest "" (get_pre fl) in
    ret (version, version)
  else
    if negb (semver.IsValid query) then
      fail (ErrorString ("invalid version: " +:+ query))
    else
      let v := MaxVersion W m query (get_pre fl) in
      if negb (String.eqb v "") then ret (v, query) else ret (query, query).

(** The ["go get"] step shared by both versions of the handler. *)
Definition go_get (fl : GetFlags) (modprefix version pkgdir query : string) : M unit :=
  if get_goget fl then
    let spec := JoinPath W modprefix version pkgdir in
    let spec := if negb (String.eqb query "") then spec +:+ "@" +:+ query else spec in
    emit (Stdout ("go get " +:+ spec)) ;;;
    emit (Exec (get_dir fl) ["go"; "get"; spec]) ;;;
    check ([], Run W (get_dir fl) ["go"; "get"; spec])
  else ret tt.

(** The part of [getcmd] after the [switch]: ["go get"], then the
    rewrite of the import paths. *)
Definition getcmd_apply (fl : GetFlags) (modprefix pkgdir version query : string) : M unit :=
  go_get fl modprefix version pkgdir query ;;;
  if negb (get_rewrite fl) then ret tt
  else
    check (RewriteModule W (get_dir fl)
             {| opt_PkgDir := pkgdir;
                opt_Prefix := modprefix;
                opt_NewVersion := version;
                opt_NewPrefix := "";
                OnRewrite := fun pos _ newpath => [Stdout (pos +:+ " " +:+ newpath)] |}).

Definition getcmd (fl : GetFlags) : M unit :=
  match get_args fl with
  | [arg0] =>
      let '(pkgpath, query) := packages.SplitSpec arg0 in
      m <- lift (QueryPackage W pkgpath (get_cached fl)) ;;
      let modprefix := ModPrefix W (mod_Path W m) in
      let '(_, pkgdir, _) := SplitPath W modprefix pkgpath in
      vq <- getcmd_version fl m query ;;
      let '(version, query) := vq in
      getcmd_apply fl modprefix pkgdir version query
  | _ => fail (ErrorString "missing package spec")
  end.

(** *** [get] (the earlier main.go, with the rewrite callback inline) *)

Definition get_version (fl : GetFlags) (m : ProxyModule W) (query : string)
  : M (string * string) :=
  if String.eqb query "" then
    ret (MaxVersion W m "" (get_pre fl), query)
  else if String.eqb query "latest" then
    latest <- lift (Latest W (mod_Path W m) (get_cached fl)) ;;
    let version := MaxVersion W latest "" (get_pre fl) in
    ret (version, version)
  else if String.eqb query "master" || String.eqb query "default" then
    latest <- lift (Latest W (mod_Path W m) (get_cached fl)) ;;
    ret (MaxVersion W latest "" (get_pre fl), query)
  else
    if negb (semver.IsValid query) then
      fail (ErrorString ("invalid version: " +:+ query))
    else
      let v := MaxVersion W m query (get_pre fl) in
      if negb (String.eqb v "") then ret (v, query) else ret (query, query).

(** The function literal passed to [importpaths.Rewrite]. *)
Definition get_rewrite_fn (modprefix version pkgdir : string) : rewrite_fn :=
  fun name path =>
    let '(_, pkgdir0, ok) := SplitPath W modprefix path in
    if negb ok then ([], ("", Some ErrSkip))
    else if negb (String.eqb pkgdir "") && negb (String.eqb pkgdir pkgdir0)
    then ([], ("", Some ErrSkip))
    else
      let newpath := JoinPath W modprefix version pkgdir0 in
      if String.eqb newpath path then ([], ("", Some ErrSkip))
      else ([Stdout (name +:+ ": " +:+ path +:+ " -> " +:+ newpath)], (newpath, None)).

Definition get_apply (fl : GetFlags) (modprefix pkgdir version query : string) : M unit :=
  go_get fl modprefix version pkgdir query ;;;
  if negb (get_rewrite fl) then ret tt
  else check (Rewrite W (get_dir fl) (get_rewrite_fn modprefix version pkgdir)).

Definition get (fl : GetFlags) : M unit :=
  match get_args fl with
  | [arg0] =>
      let '(pkgpath, query) := packages.SplitSpec arg0 in
      m <- lift (QueryPackage W pkgpath (get_cached fl)) ;;
      let modprefix := ModPrefix W (mod_Path W m) in
      let '(_, pkgdir, _) := SplitPath W modprefix pkgpath in
      vq <- get_version fl m query ;;
      let '(version, query) := vq in
      get_apply fl modprefix pkgdir version query
  | _ => fail (ErrorString "missing package spec")
  end.

End Handlers.

(** *** A small world on which the handlers can be run

    One module, [example.com/lib], known to the proxy with newest
    version [v2.3.1]; constrained lookups find nothing; the proxy has no
    record for the module [example.com/gone].  The path helpers are none
    of the verified code: [SplitPath] accepts exactly the paths under the
    prefix, [JoinPath] is [JoinPathMajor] followed by the package
    directory. *)

Definition sample_JoinPath (modprefix version pkgdir : string) : string :=
  let modpath := packages.JoinPathMajor modprefix (semver.Major version) in
  if String.eqb pkgdir "" then modpath else modpath +:+ "/" +:+ pkgdir.

Definition sample_SplitPath (modprefix pkgpath : string) : string * string * bool :=
  match packages.FindModPath (packages.mkPackage "" "" modprefix) pkgpath with
  | (modpath, true) =>
      (modpath, strings.TrimPrefix (strings.TrimPrefix pkgpath modpath) "/", true)
  | (_, false) => ("", "", false)
  end.

Definition sample_lookup (path : string) (cached : bool) : error + string :=
  if String.eqb path "example.com/gone" then inl (ErrorString "404 Not Found")
  else inr "example.com/lib".

Definition sample_world : World :=
  {| ProxyModule := string;
     mod_Path := fun m => m;
     MaxVersion := fun _ prefix _ => if String.eqb prefix "" then "v2.3.1" else "";
     Latest := sample_lookup;
     QueryPackage := sample_lookup;
     Direct := fun _ => inr [mkDep "example.com/gone" "v1.0.0"; mkDep "example.com/lib" "v1.4.0"];
     ModPrefix := fun p => p;
     SplitPath := sample_SplitPath;
     JoinPath := sample_JoinPath;
     Compare := fun v w => if String.eqb v w then 0 else if String.ltb v w then -1 else 1;
     MatchPrefixPatterns := fun _ _ => false;
     Getenv := fun _ => "";
     Run := fun _ _ => None;
     RewriteModule := fun _ _ => ([], None);
     Rewrite := fun _ _ => ([], None) |}.

Definition sample_flags (spec : string) : GetFlags :=
  {| get_pre := false; get_rewrite := true; get_goget := true;
     get_dir := "."; get_cached := true; get_args := [spec] |}.

Definition sample_list_flags : ListFlags :=
  {| list_pre := false; list_dir := "."; list_cached := true; list_major := false |}.

(** The spec [go_get] hands to ["go get"]: the target path, and the
    query after an ["@"] unless the query is empty. *)
Definition go_get_spec (W : World) (modprefix version pkgdir query : string) : string :=
  if negb (String.eqb query "") then JoinPath W modprefix version pkgdir +:+ "@" +:+ query
  else JoinPath W modprefix version pkgdir.

(** *** [list] (the earlier main.go): the same work done in sequence

    Go's [list] is named [list_handler] here, [list] being the type of
    lists.  This version writes the "failed" line to standard output. *)

Section EarlierList.
Context (W : World).

(** One turn of the [for] loop. *)
Definition list_body (fl : ListFlags) (dep : Dependency) : list event :=
  if MatchPrefixPatterns W (Getenv W "GOPRIVATE") (dep_Path dep) then []
  else
    match Latest W (dep_Path dep) (list_cached fl) with
    | inl err =>
        [Stdout (dep_Path dep +:+ ": failed: " +:+ error_msg err)]
    | inr m =>
        let v := MaxVersion W m "" (list_pre fl) in
        if list_major fl
           && (Compare W (semver.Major v) (semver.Major (dep_Version dep)) <=? 0)
        then []
        else if Compare W v (dep_Version dep) <=? 0 then []
        else [Stdout (dep_Path dep +:+ ": " +:+ dep_Version dep
                      +:+ " [latest " +:+ v +:+ "]")]
    end.

Definition list_handler (fl : ListFlags) : M unit :=
  deps <- lift (Direct W (list_dir fl)) ;;
  (concat (map (list_body fl) deps), inr tt).

End EarlierList.

(** An event with standard error redirected to standard output. *)
Definition to_stdout (ev : event) : event :=
  match ev with
  | Stderr line => Stdout line
  | _ => ev
  end.

(** *** [pathcmd] (main.go) *)

(** The flags of [gomajor path] after [fset.Parse]. *)
Record PathFlags := mkPathFlags {
  path_next : bool; path_version : string; path_rewrite : bool;
  path_dir : string; path_args : list string
}.

(** The further collaborators of [pathcmd]: [packages.FindModFile],
    [os.ReadFile], [modfile.ParseLax] (of whose result only
    [file.Module.Mod.Path] is read; [None] stands for a nil
    [file.Module]), [packages.ModMajor], [modproxy.NextMajor], and the
    quoting done by the verb [%q]. *)
Record ModTools := mkModTools {
  FindModFile : string -> error + string;
  ReadFile : string -> error + string;
  ParseLax : string -> string -> error + option string;
  ModMajor : string -> string * bool;
  NextMajor : string -> error + string;
  Quote : string -> string
}.

Section PathCommand.
Context (W : World) (T : ModTools).

(** The version [pathcmd] starts from: the flag, or else the major
    version of the module path, or else ["v1"]. *)
Definition pathcmd_version (fl : PathFlags) (modpath : string) : string :=
  if String.eqb (path_version fl) "" then
    let '(version, ok) := ModMajor T modpath in
    if negb ok || String.eqb version "" then "v1" else version
  else path_version fl.

(** The end of [pathcmd], from the [Printf] on. *)
Definition pathcmd_apply (fl : PathFlags) (oldmodprefix modprefix version : string) : M unit :=
  let modpath := JoinPath W modprefix version "" in
  emit (Stdout ("module " +:+ modpath)) ;;;
  if negb (path_rewrite fl) then ret tt
  else
    emit (Exec "" ["go"; "mod"; "edit"; "-module"; modpath]) ;;;
    check ([], Run W "" ["go"; "mod"; "edit"; "-module"; modpath]) ;;;
    check (RewriteModule W (path_dir fl)
             {| opt_PkgDir := "";
                opt_Prefix := oldmodprefix;
                opt_NewVersion := version;
                opt_NewPrefix := modprefix;
                OnRewrite := fun pos _ newpath => [Stdout (pos +:+ " " +:+ newpath)] |}).

(** [pathcmd]; the result [None] is the run-time panic of reading
    [file.Module.Mod.Path] when [file.Module] is nil, which can only
    happen before anything is written.  The command [go mod edit] is
    run without [cmd.Dir], hence in the directory [""] of the process. *)
Definition pathcmd (fl : PathFlags) : option (M unit) :=
  match FindModFile T (path_dir fl) with
  | inl err => Some (fail err)
  | inr name =>
      match ReadFile T name with
      | inl err => Some (fail err)
      | inr data =>
          match ParseLax T name data with
          | inl err => Some (fail err)
          | inr file =>
              let arg0 := hd "" (path_args fl) in
              match (if String.eqb arg0 "" then file else Some arg0) with
              | None => None
              | Some modpath =>
                  let version := pathcmd_version fl modpath in
                  match (if path_next fl then NextMajor T version else inr version) with
                  | inl err => Some (fail err)
                  | inr version =>
                      if negb (semver.IsValid version) then
                        Some (fail (ErrorString ("invalid version: " +:+ Quote T version)))
                      else
                        match file with
                        | None => None
                        | Some oldmodpath =>
                            Some (pathcmd_apply fl (ModPrefix W oldmodpath)
                                    (ModPrefix W modpath) version)
                        end
                  end
              end
          end
      end
  end.

End PathCommand.

(** The module path [pathcmd] works on, given the one declared in
    [go.mod]: the argument if there is one; and the version it arrives
    at, after [-next]. *)
Definition pathcmd_modpath (fl : PathFlags) (oldmodpath : string) : string :=
  if String.eqb (hd "" (path_args fl)) "" then oldmodpath else hd "" (path_args fl).

Definition pathcmd_target (T : ModTools) (fl : PathFlags) (oldmodpath : string)
  : error + string :=
  if path_next fl then NextMajor T (pathcmd_version T fl (pathcmd_modpath fl oldmodpath))
  else inr (pathcmd_version T fl (pathcmd_modpath fl oldmodpath)).

(** The numbers a gopkg.in path may carry after [.v]: a run of decimal
    digits that is ["0"] or has no leading zero. *)
Definition gopkg_number (ds : string) : bool :=
  (String.length ds =? semver.digits ds)%nat && negb (String.eqb ds "")
  && (String.eqb ds "0" || negb (strings.HasPrefix ds "0")).

(** *** Further sample worlds

    A world in which every command fails and the rewriter reports a
    change, and module tools over a [go.mod] that declares
    [example.com/lib]. *)

Definition sample_world_failing_run : World :=
  {| ProxyModule := string;
     mod_Path := fun m => m;
     MaxVersion := fun _ prefix _ => if String.eqb prefix "" then "v2.3.1" else prefix +:+ "+incompatible";
     Latest := sample_lookup;
     QueryPackage := sample_lookup;
     Direct := fun _ => inl (ErrorString "go: no go.mod file");
     ModPrefix := fun p => p;
     SplitPath := sample_SplitPath;
     JoinPath := sample_JoinPath;
     Compare := fun v w => if String.eqb v w then 0 else if String.ltb v w then -1 else 1;
     MatchPrefixPatterns := fun _ _ => true;
     Getenv := fun _ => "";
     Run := fun _ _ => Some (ErrorString "exit status 1");
     RewriteModule := fun _ _ => ([Stdout "main.go:3:2 example.com/lib/v2"], None);
     Rewrite := fun _ _ => ([Stdout "main.go: example.com/lib -> example.com/lib/v2"], None) |}.

Definition sample_tools : ModTools :=
  {| FindModFile := fun dir => inr (dir +:+ "/go.mod");
     ReadFile := fun _ => inr "module example.com/lib";
     ParseLax := fun _ _ => inr (Some "example.com/lib");
     ModMajor := fun _ => ("", true);
     NextMajor := fun v => if String.eqb v "v1" then inr "v2" else inl (ErrorString "invalid major");
     Quote := fun s => String (ascii_of_nat 34) (s +:+ String (ascii_of_nat 34) "") |}.

Definition sample_path_flags (version : string) (rewrite : bool) : PathFlags :=
  {| path_next := false; path_version := version; path_rewrite := rewrite;
     path_dir := "."; path_args := [] |}.

(** The numbers a major-version suffix carries on a standard path: a
    run of decimal digits without a leading zero, other than ["1"]. *)
Definition major_number (ds : string) : bool :=
  (String.length ds =? semver.digits ds)%nat && negb (String.eqb ds "")
  && negb (strings.HasPrefix ds "0") && negb (String.eqb ds "1").

(* ===================================================================== *)
(** * Properties                                                          *)
(* ===================================================================== *)

(** ** Facts about the string functions *)

Section StringFacts.
Import strings.

Lemma drop_bytes_app (p r : string) : drop_bytes (String.length p) (p +:+ r) = r.
Proof. induction p as [|c p IH]; simpl; auto. Qed.

Lemma slice_from_app (p r : string) : slice_from (p +:+ r) (len p) = r.
Proof. unfold slice_from, len. rewrite Nat2Z.id. apply drop_bytes_app. Qed.

Lemma HasPrefix_app (p r : string) : HasPrefix (p +:+ r) p = true.
Proof.
  induction p as [|c p IH]; simpl; [reflexivity|].
  rewrite Ascii.eqb_refl. exact IH.
Qed.

Lemma HasPrefix_inv (s p : string) :
  HasPrefix s p = true -> exists r, s = p +:+ r.
Proof.
  revert s. induction p as [|c p IH]; intros s H.
  - exists s. reflexivity.
  - destruct s as [|d s]; simpl in H; [discriminate|].
    apply andb_true_iff in H as [Hc Hp].
    apply Ascii.eqb_eq in Hc. subst d.
    destruct (IH s Hp) as [r ->]. exists r. reflexivity.
Qed.

Lemma HasPrefix_iff (s p : string) :
  HasPrefix s p = true <-> exists r, s = p +:+ r.
Proof.
  split; [apply HasPrefix_inv|]. intros [r ->]. apply HasPrefix_app.
Qed.

Lemma TrimPrefix_app (p r : string) : TrimPrefix (p +:+ r) p = r.
Proof. unfold TrimPrefix. rewrite HasPrefix_app. apply slice_from_app. Qed.

Lemma TrimPrefix_absent (s p : string) : HasPrefix s p = false -> TrimPrefix s p = s.
Proof. unfold TrimPrefix. intros ->. reflexivity. Qed.

Lemma index_from_found (sub s : string) (i : Z) :
  0 <= i -> 0 <= index_from s sub i -> exists a b, s = a +:+ sub +:+ b.
Proof.
  revert i. induction s as [|c s IH]; intros i Hi H; simpl in H.
  - destruct (HasPrefix "" sub) eqn:E; [|lia].
    apply HasPrefix_inv in E as [r E]. exists "", r. exact E.
  - destruct (HasPrefix (String c s) sub) eqn:E.
    + apply HasPrefix_inv in E as [r E]. exists "", r. exact E.
    + destruct (IH (i + 1)) as (a & b & ->); [lia|exact H|].
      exists (String c a), b. reflexivity.
Qed.

Lemma index_from_hit (sub s : string) (i : Z) :
  HasPrefix s sub = true -> index_from s sub i = i.
Proof. intros H. destruct s; simpl; rewrite H; reflexivity. Qed.

Lemma index_from_occurs (sub a b : string) (i : Z) :
  0 <= i -> 0 <= index_from (a +:+ sub +:+ b) sub i.
Proof.
  revert i. induction a as [|c a IH]; intros i Hi.
  - change ("" +:+ sub +:+ b) with (sub +:+ b).
    rewrite index_from_hit; [exact Hi|apply HasPrefix_app].
  - simpl. destruct (HasPrefix _ sub); [exact Hi|]. apply IH. lia.
Qed.

(** [strings.Contains] is true exactly on the strings in which the
    substring occurs. *)
Lemma Contains_iff (s sub : string) :
  Contains s sub = true <-> exists a b, s = a +:+ sub +:+ b.
Proof.
  unfold Contains, Index. rewrite Z.leb_le. split.
  - apply index_from_found. lia.
  - intros (a & b & ->). apply index_from_occurs. lia.
Qed.

End StringFacts.

(** ** The library functions and the path helpers on sample inputs *)

Example semver_major_ex : semver.Major "v2.0.0+incompatible" = "v2".
Proof. reflexivity. Qed.

Example semver_valid_ex :
  (semver.IsValid "v1.2.3-rc.1", semver.IsValid "master", semver.IsValid "v01") = (true, false, false).
Proof. reflexivity. Qed.

Example split_ex1 : module.SplitPathVersion "github.com/pkg/errors/v3" = ("github.com/pkg/errors", "/v3", true).
Proof. reflexivity. Qed.

Example split_ex2 : module.SplitPathVersion "gopkg.in/yaml.v2" = ("gopkg.in/yaml", ".v2", true).
Proof. reflexivity. Qed.

Example split_ex3 : module.SplitPathVersion "foo/bar" = ("foo/bar", "", true).
Proof. reflexivity. Qed.

Example JoinPathMajor_ex1 : packages.JoinPathMajor "github.com/pkg/errors" "v3" = "github.com/pkg/errors/v3".
Proof. reflexivity. Qed.

Example FindModPath_ex1 :
  packages.FindModPath (packages.mkPackage "" "" "github.com/go-redis/redis") "github.com/go-redis/redis/v8/internal"
  = ("github.com/go-redis/redis/v8", true).
Proof. reflexivity. Qed.

Example FindModPath_ex2 :
  packages.FindModPath (packages.mkPackage "" "" "foo/ba") "foo/bar" = ("foo/ba", true).
Proof. reflexivity. Qed.

Example SplitSpec_ex :
  (packages.SplitSpec "a/b@v2@x", packages.SplitSpec "a/b") = (("a/b", "v2@x"), ("a/b", "")).
Proof. reflexivity. Qed.

(** ** The module-path algebra *)

Section PathAlgebra.
Import strings packages.

(** [FindModPath] reports [ok] exactly when the module prefix is a
    prefix of the package path as a string of bytes; nothing after the
    prefix is looked at before the answer [ok] is given. *)
Lemma FindModPath_ok_raw_prefix (pkg : Package) (pkgpath : string) :
  snd (FindModPath pkg pkgpath) = HasPrefix pkgpath (ModPrefix pkg).
Proof.
  unfold FindModPath.
  destruct (HasPrefix pkgpath (ModPrefix pkg)); simpl; [|reflexivity].
  destruct (module.SplitPathVersion _) as [[prefix major] [|]]; reflexivity.
Qed.

(** C1 (the code departs from the claim).  Decomposing ["foo/bar"]
    against the module prefix ["foo/ba"] must fail, because the prefix
    does not end at a path-segment boundary; [FindModPath] answers
    [("foo/ba", true)].  More generally it answers [ok = true] for the
    prefix followed by any bytes at all. *)
Theorem FindModPath_ignores_segment_boundary :
  FindModPath (mkPackage "" "" "foo/ba") "foo/bar" = ("foo/ba", true)
  /\ forall (pkg : Package) (rest : string),
       snd (FindModPath pkg (ModPrefix pkg +:+ rest)) = true.
Proof.
  split; [reflexivity|].
  intros pkg rest. rewrite FindModPath_ok_raw_prefix. apply HasPrefix_app.
Qed.

(** C2.  A package whose version contains ["+incompatible"] and whose
    module prefix does not start with ["gopkg.in"] has its module
    prefix, without any major-version suffix, as its module path. *)
Theorem ModPath_incompatible (pkg : Package) (before after : string) :
  Version pkg = before +:+ "+incompatible" +:+ after ->
  HasPrefix (ModPrefix pkg) "gopkg.in" = false ->
  ModPath pkg = ModPrefix pkg.
Proof.
  intros Hv Hp. unfold ModPath, Incompatible.
  assert (Contains (Version pkg) "+incompatible" = true) as ->.
  { apply Contains_iff. exists before, after. exact Hv. }
  rewrite Hp. reflexivity.
Qed.

Lemma ModPath_incompatible_witness :
  semver.Major "v2.0.0+incompatible" = "v2"
  /\ JoinPathMajor "github.com/docker/docker" "v2" = "github.com/docker/docker/v2"
  /\ ModPath (mkPackage "v2.0.0+incompatible" "" "github.com/docker/docker")
     = "github.com/docker/docker".
Proof.
  split; [reflexivity|]. split; [reflexivity|].
  apply (ModPath_incompatible
           (mkPackage "v2.0.0+incompatible" "" "github.com/docker/docker") "v2.0.0" "");
    reflexivity.
Defined.

(** C3, as the code has it.  For a path that does not start with
    ["gopkg.in"], the major tokens ["v0"], ["v1"] and the empty token
    all leave the path unchanged. *)
Theorem JoinPathMajor_unsuffixed (path : string) :
  HasPrefix path "gopkg.in" = false ->
  JoinPathMajor path "v0" = path
  /\ JoinPathMajor path "v1" = path
  /\ JoinPathMajor path "" = path.
Proof.
  intros H. unfold JoinPathMajor. rewrite H. repeat split; reflexivity.
Qed.

Lemma JoinPathMajor_unsuffixed_witness :
  JoinPathMajor "github.com/pkg/errors" "v0" = "github.com/pkg/errors"
  /\ JoinPathMajor "github.com/pkg/errors" "v1" = "github.com/pkg/errors"
  /\ JoinPathMajor "github.com/pkg/errors" "" = "github.com/pkg/errors".
Proof. apply (JoinPathMajor_unsuffixed "github.com/pkg/errors"). reflexivity. Defined.

(** C3 as stated fails: under the gopkg.in convention the token is
    always appended, [v0] and [v1] included. *)
Lemma JoinPathMajor_gopkg_in_keeps_v1 :
  ~ (JoinPathMajor "gopkg.in/yaml" "v0" = "gopkg.in/yaml"
     /\ JoinPathMajor "gopkg.in/yaml" "v1" = "gopkg.in/yaml"
     /\ JoinPathMajor "gopkg.in/yaml" "" = "gopkg.in/yaml").
Proof. intros (H0 & _ & _). vm_compute in H0. discriminate H0. Qed.

(** C4.  The two encodings: a new [/v3] segment on a standard path (the
    slash being added only when the path does not end in one), and a
    [.v2] suffix on the last segment of a gopkg.in path. *)
Theorem JoinPathMajor_scenarios :
  JoinPathMajor "github.com/pkg/errors" "v3" = "github.com/pkg/errors/v3"
  /\ JoinPathMajor "github.com/pkg/errors/" "v3" = "github.com/pkg/errors/v3"
  /\ JoinPathMajor "gopkg.in/yaml" "v2" = "gopkg.in/yaml.v2".
Proof. repeat split; reflexivity. Qed.

(** A token that does not itself begin with the delimiter of the path's
    convention is encoded the same with and without that delimiter in
    front. *)
Theorem JoinPathMajor_leading_delimiter (path token : string) :
  HasPrefix token (convention_delimiter path) = false ->
  JoinPathMajor path (convention_delimiter path +:+ token) = JoinPathMajor path token.
Proof.
  unfold convention_delimiter, JoinPathMajor.
  destruct (HasPrefix path "gopkg.in"); intros H;
    rewrite TrimPrefix_app, (TrimPrefix_absent _ _ H); reflexivity.
Qed.

Lemma JoinPathMajor_leading_delimiter_witness :
  JoinPathMajor "gopkg.in/yaml" ".v2" = JoinPathMajor "gopkg.in/yaml" "v2"
  /\ JoinPathMajor "github.com/pkg/errors" "/v3" = JoinPathMajor "github.com/pkg/errors" "v3".
Proof.
  split.
  - apply (JoinPathMajor_leading_delimiter "gopkg.in/yaml" "v2"). reflexivity.
  - apply (JoinPathMajor_leading_delimiter "github.com/pkg/errors" "v3"). reflexivity.
Defined.

(** Only one leading delimiter is trimmed: a delimiter put in front of
    what already starts with one is kept. *)
Lemma JoinPathMajor_double_delimiter :
  JoinPathMajor "gopkg.in/yaml" ("." +:+ ".v2") <> JoinPathMajor "gopkg.in/yaml" ".v2"
  /\ JoinPathMajor "github.com/pkg/errors" ("/" +:+ "/v3")
     <> JoinPathMajor "github.com/pkg/errors" "/v3".
Proof. split; intros H; vm_compute in H; discriminate H. Qed.

End PathAlgebra.

(** ** The enumeration of direct dependencies *)

Section DirectDependencies.
Import packages.

Lemma Direct_inv_init : Direct_inv [] ([], ∅).
Proof.
  exists []. simpl. repeat split.
  - constructor.
  - rewrite lookup_empty. discriminate.
  - intros H. inversion H.
  - inversion H.
  - inversion H.
  - intros m H. inversion H.
Qed.

Lemma Direct_inv_step pkgs st pkg :
  Direct_inv pkgs st -> Direct_inv (pkgs ++ [pkg]) (Direct_step st pkg).
Proof.
  destruct st as [direct seen].
  intros (mods & Hrec & Hnd & Hseen & Hin & Hcov). simpl in Hrec, Hseen.
  unfold Direct_step. destruct pkg as [[m|]]; simpl.
  - change (negb (Indirect m) && negb (bool_decide (is_Some (Replace m))) && negb (Main m))
      with (direct_eligible m).
    destruct (direct_eligible m) eqn:Hel; simpl.
    + destruct (default false (seen !! Path m)) eqn:Hs; simpl.
      * (* already seen: nothing is appended *)
        exists mods. simpl. repeat split; try assumption; try apply Hseen.
        -- apply Hin. assumption.
        -- apply elem_of_app. left. apply Hin. assumption.
        -- intros m' Hm' Hel'. apply elem_of_app in Hm' as [Hm'|Hm'].
           ++ apply Hcov; assumption.
           ++ apply list_elem_of_singleton in Hm'. injection Hm' as ->.
              apply Hseen. exact Hs.
      * (* first package of its module: one record is appended *)
        assert (Path m ∉ Path <$> mods) as Hfresh.
        { intros Hc. apply Hseen in Hc. congruence. }
        exists (mods ++ [m]). simpl. rewrite !fmap_app. simpl. repeat split.
        -- rewrite Hrec. reflexivity.
        -- apply NoDup_app. repeat split; [assumption| |apply NoDup_singleton].
           intros p Hp Hp'. apply list_elem_of_singleton in Hp'. subst p. contradiction.
        -- intros H. apply elem_of_app.
           destruct (decide (Path m = p)) as [->|Hne].
           ++ right. apply list_elem_of_singleton. reflexivity.
           ++ left. apply Hseen. rewrite lookup_insert_ne in H; assumption.
        -- intros H. apply elem_of_app in H as [H|H].
           ++ destruct (decide (Path m = p)) as [->|Hne].
              ** rewrite lookup_insert_eq. reflexivity.
              ** rewrite lookup_insert_ne; [apply Hseen|]; assumption.
           ++ apply list_elem_of_singleton in H. subst p.
              rewrite lookup_insert_eq. reflexivity.
        -- apply elem_of_app in H as [H|H]; [apply Hin; assumption|].
           apply list_elem_of_singleton in H. subst. assumption.
        -- apply elem_of_app in H as [H|H].
           ++ apply elem_of_app. left. apply Hin. assumption.
           ++ apply list_elem_of_singleton in H. subst.
              apply elem_of_app. right. apply list_elem_of_singleton. reflexivity.
        -- intros m' Hm' Hel'. apply elem_of_app.
           apply elem_of_app in Hm' as [Hm'|Hm'].
           ++ left. apply Hcov; assumption.
           ++ apply list_elem_of_singleton in Hm'. injection Hm' as ->.
              right. apply list_elem_of_singleton. reflexivity.
    + (* not a direct dependency *)
      exists mods. simpl. repeat split; try assumption; try apply Hseen.
      * apply Hin. assumption.
      * apply elem_of_app. left. apply Hin. assumption.
      * intros m' Hm' Hel'. apply elem_of_app in Hm' as [Hm'|Hm'].
        -- apply Hcov; assumption.
        -- apply list_elem_of_singleton in Hm'. injection Hm' as ->. congruence.
  - (* a package outside any module *)
    exists mods. simpl. repeat split; try assumption; try apply Hseen.
    + apply Hin. assumption.
    + apply elem_of_app. left. apply Hin. assumption.
    + intros m' Hm' Hel'. apply elem_of_app in Hm' as [Hm'|Hm'].
      * apply Hcov; assumption.
      * apply list_elem_of_singleton in Hm'. discriminate Hm'.
Qed.

Lemma Direct_inv_loop pkgs : Direct_inv pkgs (foldl Direct_step ([], ∅) pkgs).
Proof.
  induction pkgs as [|pkg pkgs IH] using rev_ind.
  - apply Direct_inv_init.
  - rewrite foldl_snoc. apply Direct_inv_step, IH.
Qed.

(** C10.  The records [Direct] returns come, one each and in order,
    from modules with pairwise distinct paths, all of them direct
    dependencies met among the loaded packages; and every such module
    path is among them.  So a module contributes one record, however
    many of the loaded packages belong to it. *)
Theorem Direct_one_record_per_module
    (Load : string -> error + list LoadedPackage) (dir : string) :
  match Load dir with
  | inl err => Direct Load dir = inl err
  | inr pkgs =>
      exists mods : list Module,
        Direct Load dir = inr (direct_record <$> mods)
        /\ NoDup (Path <$> mods)
        /\ (forall m, m ∈ mods -> direct_eligible m = true /\ mkLoaded (Some m) ∈ pkgs)
        /\ (forall m, mkLoaded (Some m) ∈ pkgs -> direct_eligible m = true ->
                      Path m ∈ Path <$> mods)
  end.
Proof.
  unfold Direct. destruct (Load dir) as [err|pkgs]; [reflexivity|].
  destruct (Direct_inv_loop pkgs) as (mods & Hrec & Hnd & _ & Hin & Hcov).
  exists mods. unfold Direct_loop. simpl in Hrec. rewrite Hrec. auto.
Qed.

(** Three packages of one module and one package of another: two
    records. *)
Example Direct_loop_run :
  Direct_loop
    [mkLoaded (Some (mkModule "github.com/pkg/errors" "v0.9.1" false None false));
     mkLoaded None;
     mkLoaded (Some (mkModule "example.com/app" "" false None true));
     mkLoaded (Some (mkModule "github.com/pkg/errors" "v0.9.1" false None false));
     mkLoaded (Some (mkModule "gopkg.in/yaml.v2" "v2.4.0" false None false));
     mkLoaded (Some (mkModule "golang.org/x/sys" "v0.1.0" true None false));
     mkLoaded (Some (mkModule "github.com/pkg/errors" "v0.9.1" false None false))]
  = [mkPackage "v0.9.1" "" "github.com/pkg/errors"; mkPackage "v2.4.0" "" "gopkg.in/yaml"].
Proof. vm_compute. reflexivity. Qed.

End DirectDependencies.

(** ** The command handlers *)

Section HandlerProperties.
Context (W : World).

Lemma bind_lift_ok {A B} (a : A) (k : A -> M B) : bind (lift (inr a)) k = k a.
Proof. unfold bind, lift. destruct (k a). reflexivity. Qed.

Lemma bind_ret {A B} (a : A) (k : A -> M B) : bind (ret a) k = k a.
Proof. apply bind_lift_ok. Qed.

Lemma bind_ext {A B} (m : M A) (k k' : A -> M B) :
  (forall a, k a = k' a) -> bind m k = bind m k'.
Proof. intros H. destruct m as [tr [e|a]]; simpl; [reflexivity|]. rewrite H. reflexivity. Qed.

Lemma eqb_false_of_ne (s t : string) : s <> t -> String.eqb s t = false.
Proof. intros H. apply String.eqb_neq. exact H. Qed.

(** [getcmd] up to its [switch], once the argument is split and the
    proxy knows the package. *)
Lemma getcmd_unfold (fl : GetFlags) (arg0 pkgpath query : string) (m : ProxyModule W) :
  get_args fl = [arg0] ->
  packages.SplitSpec arg0 = (pkgpath, query) ->
  QueryPackage W pkgpath (get_cached fl) = inr m ->
  getcmd W fl =
    (vq <- getcmd_version W fl m query ;;
     getcmd_apply W fl (ModPrefix W (mod_Path W m))
       (snd (fst (SplitPath W (ModPrefix W (mod_Path W m)) pkgpath))) (fst vq) (snd vq)).
Proof.
  intros Hargs Hsplit Hq. unfold getcmd. rewrite Hargs, Hsplit, Hq, bind_lift_ok.
  destruct (SplitPath W _ pkgpath) as [[modpath pkgdir] ok]. simpl.
  apply bind_ext. intros [version query']. reflexivity.
Qed.

(** C5.  In the explicit-version branch of [getcmd] (the query is
    neither empty nor ["latest"]): a query that is not a valid semantic
    version makes the handler return the error "invalid version: ..."
    with nothing run and nothing rewritten; for a valid query for which
    [MaxVersion], constrained by the query, finds nothing, the query
    itself is the target version and the handler goes on with it. *)
Theorem getcmd_explicit_version
    (fl : GetFlags) (arg0 pkgpath query : string) (m : ProxyModule W) :
  get_args fl = [arg0] ->
  packages.SplitSpec arg0 = (pkgpath, query) ->
  QueryPackage W pkgpath (get_cached fl) = inr m ->
  query <> "" -> query <> "latest" ->
  (semver.IsValid query = false ->
     getcmd W fl = fail (ErrorString ("invalid version: " +:+ query)))
  /\ (semver.IsValid query = true ->
      MaxVersion W m query (get_pre fl) = "" ->
      getcmd_version W fl m query = ret (query, query)
      /\ getcmd W fl =
           getcmd_apply W fl (ModPrefix W (mod_Path W m))
             (snd (fst (SplitPath W (ModPrefix W (mod_Path W m)) pkgpath))) query query).
Proof.
  intros Hargs Hsplit Hq Hne Hnl.
  rewrite (getcmd_unfold fl arg0 pkgpath query m Hargs Hsplit Hq).
  unfold getcmd_version.
  rewrite (eqb_false_of_ne _ _ Hne), (eqb_false_of_ne _ _ Hnl).
  split.
  - intros ->. reflexivity.
  - intros -> ->. simpl. split; [reflexivity|]. apply bind_ret.
Qed.

(** C6 (the code departs from the claim).  [getcmd] has no case for
    ["master"] and ["default"]: they reach the explicit-version branch
    and are refused as invalid versions.  The earlier [get] handler has
    the case: there they resolve by a fresh [Latest] lookup to its
    newest version, as ["latest"] does. *)
Theorem getcmd_master_default
    (fl : GetFlags) (arg0 pkgpath query : string) (m : ProxyModule W) :
  get_args fl = [arg0] ->
  packages.SplitSpec arg0 = (pkgpath, query) ->
  QueryPackage W pkgpath (get_cached fl) = inr m ->
  query = "master" \/ query = "default" ->
  getcmd W fl = fail (ErrorString ("invalid version: " +:+ query))
  /\ get_version W fl m query =
       (latest <- lift (Latest W (mod_Path W m) (get_cached fl)) ;;
        ret (MaxVersion W latest "" (get_pre fl), query))
  /\ get_version W fl m "latest" =
       (latest <- lift (Latest W (mod_Path W m) (get_cached fl)) ;;
        ret (MaxVersion W latest "" (get_pre fl), MaxVersion W latest "" (get_pre fl))).
Proof.
  intros Hargs Hsplit Hq Hquery.
  rewrite (getcmd_unfold fl arg0 pkgpath query m Hargs Hsplit Hq).
  destruct Hquery as [-> | ->]; repeat split; reflexivity.
Qed.

(** C7.  The callback [get] hands to the rewriter skips every import
    path that the rewrite would leave as it is: when the new path
    computed for [path] is [path] itself, the answer is [ErrSkip] and
    nothing is printed. *)
Theorem get_rewrite_fn_idempotent (modprefix version pkgdir name path : string) :
  JoinPath W modprefix version (snd (fst (SplitPath W modprefix path))) = path ->
  get_rewrite_fn W modprefix version pkgdir name path = ([], ("", Some ErrSkip)).
Proof.
  intros H. unfold get_rewrite_fn.
  destruct (SplitPath W modprefix path) as [[modpath pkgdir0] ok]. simpl in H.
  destruct ok; simpl; [|reflexivity].
  destruct (negb (String.eqb pkgdir "") && negb (String.eqb pkgdir pkgdir0)); [reflexivity|].
  rewrite H, String.eqb_refl. reflexivity.
Qed.

(** The callback never answers with the path it was given. *)
Lemma get_rewrite_fn_changes (modprefix version pkgdir name path newpath : string) tr :
  get_rewrite_fn W modprefix version pkgdir name path = (tr, (newpath, None)) ->
  newpath <> path.
Proof.
  unfold get_rewrite_fn.
  destruct (SplitPath W modprefix path) as [[modpath pkgdir0] ok].
  destruct ok; simpl; [|discriminate].
  destruct (negb (String.eqb pkgdir "") && negb (String.eqb pkgdir pkgdir0)); [discriminate|].
  destruct (String.eqb _ path) eqn:E; [discriminate|].
  intros [= _ <-]. apply String.eqb_neq. exact E.
Qed.

(** Every task of [listcmd] returns nil, whatever the lookup did. *)
Lemma list_task_returns_nil (fl : ListFlags) (dep : Dependency) :
  snd (list_task W fl dep) = None.
Proof.
  unfold list_task. destruct (Latest W _ _) as [err|m]; [reflexivity|].
  destruct (list_major fl && _); [reflexivity|].
  destruct (Compare W _ _ <=? 0); reflexivity.
Qed.

Lemma group_Wait_all_nil (fl : ListFlags) (finished : list Dependency) :
  group_Wait (map (fun dep => snd (list_task W fl dep)) finished) = None.
Proof.
  induction finished as [|dep rest IH]; simpl; [reflexivity|].
  rewrite list_task_returns_nil. exact IH.
Qed.

Lemma list_task_lookup_failed (fl : ListFlags) (dep : Dependency) (err : error) :
  Latest W (dep_Path dep) (list_cached fl) = inl err ->
  list_task W fl dep = ([Stderr (dep_Path dep +:+ ": failed: " +:+ error_msg err)], None).
Proof. unfold list_task. intros ->. reflexivity. Qed.

End HandlerProperties.

(** ** The handlers run on the sample world *)

Lemma getcmd_explicit_version_witness :
  getcmd sample_world (sample_flags "example.com/lib@nonsense")
  = fail (ErrorString "invalid version: nonsense")
  /\ getcmd_version sample_world (sample_flags "example.com/lib@v3.0.0")
       "example.com/lib" "v3.0.0"
     = ret ("v3.0.0", "v3.0.0").
Proof.
  split.
  - apply (getcmd_explicit_version sample_world
             (sample_flags "example.com/lib@nonsense")
             "example.com/lib@nonsense" "example.com/lib" "nonsense" "example.com/lib");
      try reflexivity; discriminate.
  - apply (getcmd_explicit_version sample_world
             (sample_flags "example.com/lib@v3.0.0")
             "example.com/lib@v3.0.0" "example.com/lib" "v3.0.0" "example.com/lib");
      try reflexivity; discriminate.
Defined.

Example getcmd_explicit_run :
  getcmd sample_world (sample_flags "example.com/lib@v3.0.0")
  = ([Stdout "go get example.com/lib/v3@v3.0.0";
      Exec "." ["go"; "get"; "example.com/lib/v3@v3.0.0"]], inr tt).
Proof. vm_compute. reflexivity. Qed.

Lemma getcmd_master_default_witness :
  getcmd sample_world (sample_flags "example.com/lib@master")
  = fail (ErrorString "invalid version: master").
Proof.
  apply (getcmd_master_default sample_world
           (sample_flags "example.com/lib@master")
           "example.com/lib@master" "example.com/lib" "master" "example.com/lib");
    try reflexivity.
  left. reflexivity.
Defined.

Example get_master_run :
  get sample_world (sample_flags "example.com/lib@master")
  = ([Stdout "go get example.com/lib/v2@master";
      Exec "." ["go"; "get"; "example.com/lib/v2@master"]], inr tt)
  /\ get sample_world (sample_flags "example.com/lib@latest")
     = ([Stdout "go get example.com/lib/v2@v2.3.1";
         Exec "." ["go"; "get"; "example.com/lib/v2@v2.3.1"]], inr tt).
Proof. split; vm_compute; reflexivity. Qed.

Lemma get_rewrite_fn_idempotent_witness :
  get_rewrite_fn sample_world "example.com/lib" "v2.3.1" "" "main.go" "example.com/lib/v2/sub"
  = ([], ("", Some ErrSkip)).
Proof.
  apply (get_rewrite_fn_idempotent sample_world
           "example.com/lib" "v2.3.1" "" "main.go" "example.com/lib/v2/sub").
  reflexivity.
Defined.

Example get_rewrite_fn_run :
  get_rewrite_fn sample_world "example.com/lib" "v2.3.1" "" "main.go" "example.com/lib/sub"
  = ([Stdout "main.go: example.com/lib/sub -> example.com/lib/v2/sub"],
     ("example.com/lib/v2/sub", None)).
Proof. vm_compute. reflexivity. Qed.

Example listcmd_run :
  group_run sample_world sample_list_flags
    [mkDep "example.com/gone" "v1.0.0"; mkDep "example.com/lib" "v1.4.0"]
  = ([Stderr "example.com/gone: failed: 404 Not Found";
      Stdout "example.com/lib: v1.4.0 [latest v2.3.1]"], inr tt).
Proof. vm_compute. reflexivity. Qed.

(** ** More facts about the string functions *)

Section SliceAndIndexFacts.
Import strings.

Lemma app_cons (x : ascii) (a b : string) : String x a +:+ b = String x (a +:+ b).
Proof. reflexivity. Qed.

Lemma app_nil_l (b : string) : "" +:+ b = b.
Proof. reflexivity. Qed.

Lemma app_assoc (a b c : string) : (a +:+ b) +:+ c = a +:+ b +:+ c.
Proof.
  induction a as [|x a IH]; [reflexivity|].
  rewrite !app_cons, IH. reflexivity.
Qed.

Lemma app_nil_r (a : string) : a +:+ "" = a.
Proof. induction a as [|x a IH]; [reflexivity|]. rewrite app_cons, IH. reflexivity. Qed.

Lemma length_app (a b : string) :
  String.length (a +:+ b) = (String.length a + String.length b)%nat.
Proof.
  induction a as [|x a IH]; [reflexivity|].
  rewrite app_cons. simpl. rewrite IH. reflexivity.
Qed.

Lemma len_app (a b : string) : len (a +:+ b) = len a + len b.
Proof. unfold len. rewrite length_app. lia. Qed.

Lemma len_nonneg (s : string) : 0 <= len s.
Proof. unfold len. lia. Qed.

Lemma take_bytes_app (p r : string) : take_bytes (String.length p) (p +:+ r) = p.
Proof.
  induction p as [|x p IH]; [reflexivity|].
  rewrite app_cons. simpl. rewrite IH. reflexivity.
Qed.

Lemma slice_to_app (p r : string) : slice_to (p +:+ r) (len p) = p.
Proof. unfold slice_to, len. rewrite Nat2Z.id. apply take_bytes_app. Qed.

Lemma slice_to_len (s : string) : slice_to s (len s) = s.
Proof. rewrite <- (app_nil_r s) at 1. apply slice_to_app. Qed.

Lemma index_from_shift (sub s : string) (i : Z) :
  index_from s sub i
  = if 0 <=? index_from s sub 0 then i + index_from s sub 0 else -1.
Proof.
  revert i. induction s as [|x s IH]; intros i; simpl.
  - destruct (HasPrefix "" sub); simpl; [f_equal; lia|reflexivity].
  - destruct (HasPrefix (String x s) sub); simpl; [lia|].
    change (0 + 1) with 1. rewrite (IH (i + 1)), (IH 1).
    destruct (0 <=? index_from s sub 0) eqn:E.
    + apply Z.leb_le in E.
      assert ((0 <=? 1 + index_from s sub 0) = true) as -> by (apply Z.leb_le; lia). lia.
    + reflexivity.
Qed.

(** Searching for one byte [c]. *)
Lemma Index_byte_cons (c d : ascii) (s : string) :
  Index (String d s) (String c "")
  = if Ascii.eqb c d then 0
    else if 0 <=? Index s (String c "") then 1 + Index s (String c "") else -1.
Proof.
  unfold Index. simpl. rewrite andb_true_r.
  destruct (Ascii.eqb c d); [reflexivity|]. apply index_from_shift.
Qed.

Lemma Contains_byte_cons (c d : ascii) (s : string) :
  Contains (String d s) (String c "") = Ascii.eqb c d || Contains s (String c "").
Proof.
  unfold Contains. rewrite Index_byte_cons.
  destruct (Ascii.eqb c d); [reflexivity|]. simpl.
  destruct (0 <=? Index s (String c "")) eqn:E; [|reflexivity].
  apply Z.leb_le in E. apply Z.leb_le. lia.
Qed.

Lemma Contains_byte_nil (c : ascii) : Contains "" (String c "") = false.
Proof. reflexivity. Qed.

Lemma index_from_range (sub s : string) (i : Z) :
  index_from s sub i = -1 \/ i <= index_from s sub i.
Proof.
  revert i. induction s as [|x s IH]; intros i; simpl.
  - destruct (HasPrefix "" sub); [right; lia|left; reflexivity].
  - destruct (HasPrefix (String x s) sub); [right; lia|].
    destruct (IH (i + 1)) as [H|H]; [left; exact H|right; lia].
Qed.

Lemma Index_absent (s sub : string) : Contains s sub = false -> Index s sub = -1.
Proof.
  unfold Contains. intros H. apply Z.leb_gt in H.
  destruct (index_from_range sub s 0) as [E|E]; [exact E|]. unfold Index in *. lia.
Qed.

(** The first occurrence of a byte: nothing before it contains the byte. *)
Lemma Index_byte_first (c : ascii) (a b : string) :
  Contains a (String c "") = false ->
  Index (a +:+ String c b) (String c "") = len a.
Proof.
  induction a as [|d a IH]; intros H.
  - rewrite app_nil_l, Index_byte_cons, Ascii.eqb_refl. reflexivity.
  - rewrite Contains_byte_cons in H. apply orb_false_iff in H as [Hd Ha].
    rewrite app_cons, Index_byte_cons, Hd, (IH Ha).
    assert ((0 <=? len a) = true) as -> by (apply Z.leb_le, len_nonneg).
    unfold len. simpl String.length. lia.
Qed.

Lemma Contains_byte_split (c : ascii) (s : string) :
  Contains s (String c "") = true ->
  exists a b, s = a +:+ String c b /\ Contains a (String c "") = false.
Proof.
  induction s as [|d s IH]; intros H.
  - discriminate H.
  - rewrite Contains_byte_cons in H. destruct (Ascii.eqb c d) eqn:E.
    + apply Ascii.eqb_eq in E. subst d. exists "", s. split; reflexivity.
    + simpl in H. destruct (IH H) as (a & b & -> & Ha).
      exists (String d a), b. split; [reflexivity|].
      rewrite Contains_byte_cons, E, Ha. reflexivity.
Qed.

Lemma Contains_byte_app (c : ascii) (a b : string) :
  Contains (a +:+ b) (String c "") = Contains a (String c "") || Contains b (String c "").
Proof.
  induction a as [|d a IH]; [reflexivity|].
  rewrite app_cons, !Contains_byte_cons, IH. apply orb_assoc.
Qed.

Lemma slice_from_app_byte (a b : string) (c : ascii) :
  slice_from (a +:+ String c b) (len a + 1) = b.
Proof.
  change (String c b) with (String c "" +:+ b). rewrite <- app_assoc.
  replace (len a + 1) with (len (a +:+ String c "")); [apply slice_from_app|].
  rewrite len_app. reflexivity.
Qed.

End SliceAndIndexFacts.

(** ** [SplitSpec] *)

Section SplitSpecProperties.
Import strings packages.

Lemma SplitSpec_at (path version : string) :
  Contains path "@" = false ->
  SplitSpec (path +:+ "@" +:+ version) = (path, version).
Proof.
  intros H. unfold SplitSpec, SplitN2.
  change ("@" +:+ version) with (String "@" version).
  rewrite (Index_byte_first "@" path version H).
  assert ((len path <? 0) = false) as -> by (apply Z.ltb_ge, len_nonneg).
  rewrite slice_to_app. change (len "@") with 1. rewrite slice_from_app_byte.
  reflexivity.
Qed.

(** X1.  A package path that contains no ["@"], joined to a version query
    by ["@"], is split back into the two, whatever the query contains. *)
Theorem SplitSpec_roundtrip (path version : string) :
  Contains path "@" = false ->
  SplitSpec (path +:+ "@" +:+ version) = (path, version).
Proof. apply SplitSpec_at. Qed.

Lemma SplitSpec_roundtrip_witness :
  SplitSpec ("github.com/pkg/errors" +:+ "@" +:+ "v1.0.0@x") = ("github.com/pkg/errors", "v1.0.0@x").
Proof. apply (SplitSpec_roundtrip "github.com/pkg/errors" "v1.0.0@x"). reflexivity. Defined.

(** X2.  [SplitSpec] cuts at the first ["@"]: the path it returns never
    contains one; a spec with an ["@"] is the path, the ["@"] and the
    query put together again, and a spec without one is returned whole
    with an empty query. *)
Theorem SplitSpec_first_at (spec : string) :
  Contains (fst (SplitSpec spec)) "@" = false
  /\ if Contains spec "@"
     then spec = fst (SplitSpec spec) +:+ "@" +:+ snd (SplitSpec spec)
     else SplitSpec spec = (spec, "").
Proof.
  destruct (Contains spec "@") eqn:E.
  - destruct (Contains_byte_split "@" spec E) as (a & b & -> & Ha).
    change (String "@" b) with ("@" +:+ b). rewrite (SplitSpec_at a b Ha). simpl.
    split; [exact Ha|reflexivity].
  - assert (SplitSpec spec = (spec, "")) as ->; [|split; [exact E|reflexivity]].
    unfold SplitSpec, SplitN2. rewrite (Index_absent _ _ E). reflexivity.
Qed.

End SplitSpecProperties.

(** ** Decomposing package paths *)

Section Decompose.
Import strings packages.

Lemma get_app_r (a b : string) (n : nat) :
  String.get (String.length a + n) (a +:+ b) = String.get n b.
Proof.
  induction a as [|x a IH]; [reflexivity|].
  rewrite app_cons. simpl. exact IH.
Qed.

Lemma at_of_nat (s : string) (j : nat) :
  at_ s (Z.of_nat j) = match String.get j s with Some c => c | None => zero end.
Proof.
  unfold at_. assert ((Z.of_nat j <? 0) = false) as -> by (apply Z.ltb_ge; lia).
  rewrite Nat2Z.id. reflexivity.
Qed.

Lemma at_app_r (a b : string) (k : nat) :
  at_ (a +:+ b) (len a + Z.of_nat k) = at_ b (Z.of_nat k).
Proof.
  unfold len. rewrite <- Nat2Z.inj_add, !at_of_nat, get_app_r. reflexivity.
Qed.

(** [FindModPath] on a path that continues the module prefix by a slash
    and a segment: the candidate module path handed to
    [SplitPathVersion] is the prefix with that one segment. *)
Lemma FindModPath_segment (pkg : Package) (seg rest : string) :
  Contains seg "/" = false ->
  rest = "" \/ HasPrefix rest "/" = true ->
  FindModPath pkg (ModPrefix pkg +:+ "/" +:+ seg +:+ rest)
  = let '(_, major, ok) := module.SplitPathVersion (ModPrefix pkg +:+ "/" +:+ seg) in
    if ok then (JoinPathMajor (ModPrefix pkg) major, true) else (ModPrefix pkg, true).
Proof.
  intros Hseg Hrest. unfold FindModPath. cbv zeta.
  rewrite HasPrefix_app. simpl negb. cbv iota.
  rewrite slice_from_app, HasPrefix_app.
  change ("/" +:+ seg +:+ rest) with (String "/" (seg +:+ rest)).
  rewrite slice_from_app_byte.
  destruct Hrest as [-> | Hslash].
  - rewrite app_nil_r, (Index_absent _ _ Hseg). simpl Z.leb. cbv iota.
    rewrite slice_to_len. reflexivity.
  - apply HasPrefix_inv in Hslash as [r ->].
    change ("/" +:+ r) with (String "/" r).
    rewrite (Index_byte_first "/" seg r Hseg).
    assert ((0 <=? len seg) = true) as -> by (apply Z.leb_le, len_nonneg).
    change (String "/" (seg +:+ String "/" r)) with ("/" +:+ seg +:+ String "/" r).
    replace (ModPrefix pkg +:+ "/" +:+ seg +:+ String "/" r)
      with ((ModPrefix pkg +:+ "/" +:+ seg) +:+ String "/" r)
      by (rewrite !app_assoc; reflexivity).
    replace (len (ModPrefix pkg) + 1 + len seg)
      with (len (ModPrefix pkg +:+ "/" +:+ seg))
      by (rewrite !len_app; change (len "/") with 1; lia).
    rewrite slice_to_app. reflexivity.
Qed.

(** X3.  Only the first path segment after the module prefix decides the
    module path: whatever follows that segment changes nothing. *)
Theorem FindModPath_first_segment_only (pkg : Package) (seg sub : string) :
  Contains seg "/" = false ->
  FindModPath pkg (ModPrefix pkg +:+ "/" +:+ seg +:+ "/" +:+ sub)
  = FindModPath pkg (ModPrefix pkg +:+ "/" +:+ seg).
Proof.
  intros Hseg.
  rewrite (FindModPath_segment pkg seg ("/" +:+ sub) Hseg)
    by (right; apply HasPrefix_app).
  pose proof (FindModPath_segment pkg seg "" Hseg (or_introl eq_refl)) as E.
  rewrite app_nil_r in E. rewrite E. reflexivity.
Qed.

Lemma FindModPath_first_segment_only_witness :
  FindModPath (mkPackage "" "" "github.com/go-redis/redis")
    ("github.com/go-redis/redis" +:+ "/" +:+ "v8" +:+ "/" +:+ "internal/pool")
  = FindModPath (mkPackage "" "" "github.com/go-redis/redis")
      ("github.com/go-redis/redis" +:+ "/" +:+ "v8").
Proof.
  apply (FindModPath_first_segment_only
           (mkPackage "" "" "github.com/go-redis/redis") "v8" "internal/pool").
  reflexivity.
Defined.

End Decompose.

(** ** Paths that carry a major version *)

Section VersionedPaths.
Import strings packages.

Lemma HasPrefix_slash_mismatch (q p x : string) :
  Contains q "/" = false ->
  HasPrefix p q = false ->
  HasPrefix x "/" = true ->
  HasPrefix (p +:+ x) (q +:+ "/") = false.
Proof.
  revert p. induction q as [|c q IH]; intros p Hq Hp Hx.
  - destruct p; discriminate Hp.
  - rewrite Contains_byte_cons in Hq. apply orb_false_iff in Hq as [Hc Hq].
    rewrite app_cons. destruct p as [|d p].
    + apply HasPrefix_inv in Hx as [r ->]. rewrite app_nil_l.
      change ("/" +:+ r) with (String "/" r). simpl.
      rewrite Ascii.eqb_sym, Hc. reflexivity.
    + rewrite app_cons. simpl in Hp |- *.
      destruct (Ascii.eqb c d); simpl in Hp |- *; [|reflexivity].
      apply IH; assumption.
Qed.

Lemma all_digits_get (ds : string) :
  String.length ds = semver.digits ds ->
  forall n c, String.get n ds = Some c -> semver.is_digit c = true.
Proof.
  induction ds as [|d ds IH]; intros Hd n c Hc; [discriminate Hc|].
  simpl in Hd. destruct (semver.is_digit d) eqn:E; [|discriminate Hd].
  destruct n as [|n]; simpl in Hc.
  - injection Hc as <-. exact E.
  - apply (IH ltac:(lia) n c Hc).
Qed.

Lemma get_lt (s : string) (n : nat) :
  (n < String.length s)%nat -> exists c, String.get n s = Some c.
Proof.
  revert n. induction s as [|x s IH]; intros n Hn; simpl in Hn; [lia|].
  destruct n as [|n]; simpl; [eauto|]. apply IH. lia.
Qed.

Lemma digit_not_dot (c : ascii) : semver.is_digit c = true -> Ascii.eqb c "."%char = false.
Proof.
  intros H. destruct (Ascii.eqb_spec c "."%char) as [->|]; [discriminate H|reflexivity].
Qed.

Lemma scan_back_S (dots : bool) (path : string) (j : nat) (dot : bool) :
  module.scan_back dots path (S j) dot
  = if dots && Ascii.eqb (at_ path (Z.of_nat j)) "."%char
    then module.scan_back dots path j true
    else if semver.is_digit (at_ path (Z.of_nat j))
         then module.scan_back dots path j dot
         else (S j, dot).
Proof. reflexivity. Qed.

(** The backward scan runs over a tail of digits without noticing
    anything. *)
Lemma scan_back_digits (dots : bool) (pre ds : string) (dot : bool) (n : nat) :
  String.length ds = semver.digits ds ->
  (n <= String.length ds)%nat ->
  module.scan_back dots (pre +:+ ds) (String.length pre + n) dot
  = module.scan_back dots (pre +:+ ds) (String.length pre) dot.
Proof.
  intros Hd. induction n as [|n IH]; intros Hn.
  - rewrite Nat.add_0_r. reflexivity.
  - rewrite Nat.add_succ_r, scan_back_S, at_of_nat, get_app_r.
    destruct (get_lt ds n ltac:(lia)) as [c Hc]. rewrite Hc.
    pose proof (all_digits_get ds Hd n c Hc) as Hdig.
    rewrite (digit_not_dot c Hdig), andb_false_r, Hdig. apply IH. lia.
Qed.

(** ... and stops at the [v] in front of them. *)
Lemma scan_back_at_v (dots : bool) (p ds : string) (dot : bool) (c : ascii) :
  module.scan_back dots ((p +:+ String c "v") +:+ ds) (String.length (p +:+ String c "v")) dot
  = (String.length (p +:+ String c "v"), dot).
Proof.
  rewrite length_app. simpl String.length.
  replace (String.length p + 2)%nat with (S (String.length p + 1)) by lia.
  rewrite scan_back_S, at_of_nat, app_assoc, get_app_r. simpl.
  rewrite andb_false_r. reflexivity.
Qed.

Lemma major_number_inv (ds : string) :
  major_number ds = true ->
  String.length ds = semver.digits ds
  /\ exists d ds', ds = String d ds' /\ Ascii.eqb d "0"%char = false /\ ds <> "1".
Proof.
  unfold major_number. intros H.
  apply andb_true_iff in H as [H H1]. apply andb_true_iff in H as [H H0].
  apply andb_true_iff in H as [Hd He].
  apply Nat.eqb_eq in Hd. split; [exact Hd|].
  destruct ds as [|d ds']; [simpl in He; discriminate He|]. exists d, ds'.
  split; [reflexivity|]. split.
  - change (HasPrefix (String d ds') "0") with (Ascii.eqb "0" d && true) in H0.
    rewrite andb_true_r in H0. rewrite Ascii.eqb_sym.
    destruct (Ascii.eqb "0" d); [simpl in H0; discriminate H0|reflexivity].
  - apply String.eqb_neq. destruct (String.eqb (String d ds') "1"); [simpl in H1; discriminate H1|reflexivity].
Qed.

(** [SplitPathVersion] takes a [/vN] suffix off a standard path. *)
Lemma SplitPathVersion_versioned (p ds : string) :
  HasPrefix p "gopkg.in" = false ->
  major_number ds = true ->
  module.SplitPathVersion (p +:+ "/v" +:+ ds) = (p, "/v" +:+ ds, true).
Proof.
  intros Hp Hds. destruct (major_number_inv ds Hds) as (Hd & d & ds' & Eds & Hd0 & Hne1).
  unfold module.SplitPathVersion.
  assert (HasPrefix (p +:+ "/v" +:+ ds) "gopkg.in/" = false) as ->
    by exact (HasPrefix_slash_mismatch "gopkg.in" p ("/v" +:+ ds) eq_refl Hp eq_refl).
  assert (module.scan_back true (p +:+ "/v" +:+ ds) (String.length (p +:+ "/v" +:+ ds)) false
          = (String.length (p +:+ "/v"), false)) as ->.
  { rewrite <- (app_assoc p "/v" ds), (length_app (p +:+ "/v") ds).
    rewrite (scan_back_digits true (p +:+ "/v") ds false _ Hd (Nat.le_refl _)).
    apply (scan_back_at_v true p ds false "/"). }
  assert (Z.of_nat (String.length (p +:+ "/v")) = len p + 2) as ->.
  { rewrite length_app. unfold len. simpl String.length. lia. }
  pose proof (len_nonneg p) as Hlp.
  assert (0 < len ds) as Hlds by (subst ds; unfold len; simpl String.length; lia).
  assert ((len p + 2 <=? 1) = false) as -> by (apply Z.leb_gt; lia).
  assert ((len p + 2 =? len (p +:+ "/v" +:+ ds)) = false) as ->.
  { apply Z.eqb_neq. rewrite !len_app. change (len "/v") with 2. lia. }
  replace (len p + 2 - 1) with (len p + Z.of_nat 1) by lia.
  replace (len p + 2 - 2) with (len p + Z.of_nat 0) by lia.
  rewrite !at_app_r. simpl orb.
  replace (len p + Z.of_nat 0) with (len p) by lia.
  rewrite slice_to_app, slice_from_app.
  assert ((len ("/v" +:+ ds) <=? 2) = false) as ->.
  { apply Z.leb_gt. rewrite len_app. change (len "/v") with 2. lia. }
  assert (Ascii.eqb (at_ ("/v" +:+ ds) 2) "0"%char = false) as ->.
  { subst ds. exact Hd0. }
  assert (String.eqb ("/v" +:+ ds) "/v1" = false) as ->.
  { apply String.eqb_neq. intros E. apply Hne1.
    change ("/v" +:+ ds) with (String "/" (String "v" ds)) in E. congruence. }
  reflexivity.
Qed.

Lemma digits_no_byte (c : ascii) (ds : string) :
  semver.is_digit c = false ->
  String.length ds = semver.digits ds ->
  Contains ds (String c "") = false.
Proof.
  intros Hc. induction ds as [|d ds IH]; intros Hd; [reflexivity|].
  simpl in Hd. destruct (semver.is_digit d) eqn:E; [|discriminate Hd].
  rewrite Contains_byte_cons, IH by lia.
  destruct (Ascii.eqb_spec c d) as [->|]; [congruence|reflexivity].
Qed.

Lemma JoinPathMajor_slash_token (p token : string) :
  HasPrefix p "gopkg.in" = false ->
  HasPrefix token "/" = false ->
  JoinPathMajor p ("/" +:+ token) = JoinPathMajor p token.
Proof.
  intros Hp Ht. unfold JoinPathMajor.
  rewrite Hp, TrimPrefix_app, (TrimPrefix_absent _ _ Ht). reflexivity.
Qed.

(** On a standard path without a final slash, the token [vN] is added
    as the segment [/vN]. *)
Lemma JoinPathMajor_versioned (p ds : string) :
  HasPrefix p "gopkg.in" = false ->
  HasSuffix p "/" = false ->
  major_number ds = true ->
  JoinPathMajor p ("v" +:+ ds) = p +:+ "/v" +:+ ds.
Proof.
  intros Hp Hs Hds. destruct (major_number_inv ds Hds) as (_ & d & ds' & Eds & Hd0 & Hne1).
  unfold JoinPathMajor. rewrite Hp, Hs.
  rewrite (TrimPrefix_absent ("v" +:+ ds) "/" eq_refl).
  assert (String.eqb ("v" +:+ ds) "v0" = false) as ->.
  { apply String.eqb_neq. intros E. subst ds. injection E as E0 E1.
    subst d. discriminate Hd0. }
  assert (String.eqb ("v" +:+ ds) "v1" = false) as ->.
  { apply String.eqb_neq. intros E. apply Hne1.
    change ("v" +:+ ds) with (String "v" ds) in E. congruence. }
  simpl. rewrite app_assoc. reflexivity.
Qed.

(** X4.  Encoding a major version on a standard path and splitting the
    result gives back the path and the version: [SplitPathVersion] undoes
    [JoinPathMajor]. *)
Theorem SplitPathVersion_JoinPathMajor (p ds : string) :
  HasPrefix p "gopkg.in" = false ->
  HasSuffix p "/" = false ->
  major_number ds = true ->
  module.SplitPathVersion (JoinPathMajor p ("v" +:+ ds)) = (p, "/v" +:+ ds, true).
Proof.
  intros Hp Hs Hds. rewrite (JoinPathMajor_versioned p ds Hp Hs Hds).
  apply SplitPathVersion_versioned; assumption.
Qed.

Lemma SplitPathVersion_JoinPathMajor_witness :
  module.SplitPathVersion (JoinPathMajor "github.com/pkg/errors" ("v" +:+ "12"))
  = ("github.com/pkg/errors", "/v" +:+ "12", true).
Proof. apply (SplitPathVersion_JoinPathMajor "github.com/pkg/errors" "12"); reflexivity. Defined.

(** X5.  Decomposition undoes encoding: for a standard module prefix, a
    package path made of the encoded module path and a sub-path is found
    to belong to that module path. *)
Theorem FindModPath_JoinPathMajor (pkg : Package) (ds sub : string) :
  HasPrefix (ModPrefix pkg) "gopkg.in" = false ->
  HasSuffix (ModPrefix pkg) "/" = false ->
  major_number ds = true ->
  sub = "" \/ HasPrefix sub "/" = true ->
  FindModPath pkg (JoinPathMajor (ModPrefix pkg) ("v" +:+ ds) +:+ sub)
  = (JoinPathMajor (ModPrefix pkg) ("v" +:+ ds), true).
Proof.
  intros Hp Hs Hds Hsub.
  destruct (major_number_inv ds Hds) as (Hd & _).
  rewrite (JoinPathMajor_versioned _ ds Hp Hs Hds).
  replace ((ModPrefix pkg +:+ "/v" +:+ ds) +:+ sub)
    with (ModPrefix pkg +:+ "/" +:+ ("v" +:+ ds) +:+ sub)
    by (rewrite !app_assoc; reflexivity).
  rewrite (FindModPath_segment pkg ("v" +:+ ds) sub); [|
    change ("v" +:+ ds) with (String "v" ds);
    rewrite Contains_byte_cons, (digits_no_byte "/" ds eq_refl Hd); reflexivity
    | exact Hsub].
  change ("/" +:+ "v" +:+ ds) with ("/v" +:+ ds).
  rewrite (SplitPathVersion_versioned _ ds Hp Hds).
  change ("/v" +:+ ds) with ("/" +:+ "v" +:+ ds).
  rewrite (JoinPathMajor_slash_token _ ("v" +:+ ds) Hp eq_refl).
  rewrite (JoinPathMajor_versioned _ ds Hp Hs Hds). reflexivity.
Qed.

Lemma FindModPath_JoinPathMajor_witness :
  FindModPath (mkPackage "" "" "github.com/go-redis/redis")
    (JoinPathMajor "github.com/go-redis/redis" ("v" +:+ "8") +:+ "/internal/pool")
  = (JoinPathMajor "github.com/go-redis/redis" ("v" +:+ "8"), true).
Proof.
  apply (FindModPath_JoinPathMajor (mkPackage "" "" "github.com/go-redis/redis") "8" "/internal/pool");
    try reflexivity.
  right. reflexivity.
Defined.

End VersionedPaths.

(** ** Unversioned paths, odd versions, and what [Direct] records *)

Section PlainPaths.
Import strings packages.

Lemma get_last (a : string) (c : ascii) :
  String.get (String.length a) (a +:+ String c "") = Some c.
Proof.
  rewrite <- (Nat.add_0_r (String.length a)) at 1. rewrite get_app_r. reflexivity.
Qed.

(** [SplitPathVersion] leaves alone a standard path whose last byte is
    neither a digit nor a dot. *)
Lemma SplitPathVersion_plain (a : string) (c : ascii) :
  HasPrefix (a +:+ String c "") "gopkg.in/" = false ->
  semver.is_digit c = false ->
  c <> "."%char ->
  module.SplitPathVersion (a +:+ String c "") = (a +:+ String c "", "", true).
Proof.
  intros Hg Hd Hdot. unfold module.SplitPathVersion. rewrite Hg.
  assert (String.length (a +:+ String c "") = S (String.length a)) as Hlen
    by (rewrite length_app; simpl; lia).
  rewrite Hlen, scan_back_S, at_of_nat, get_last, Hd.
  assert (Ascii.eqb c "."%char = false) as -> by (apply Ascii.eqb_neq; exact Hdot).
  simpl andb. cbv iota beta.
  assert (len (a +:+ String c "") = Z.of_nat (S (String.length a))) as ->
    by (unfold len; rewrite Hlen; reflexivity).
  rewrite Z.eqb_refl, orb_true_r. reflexivity.
Qed.

Lemma JoinPathMajor_no_major (p : string) :
  HasPrefix p "gopkg.in" = false -> JoinPathMajor p "" = p.
Proof. intros Hp. unfold JoinPathMajor. rewrite Hp. reflexivity. Qed.

(** X6.  A package path whose first segment below a standard module
    prefix does not end in a digit or a dot belongs to the unversioned
    module: the module path found is the prefix itself. *)
Theorem FindModPath_unversioned (pkg : Package) (s : string) (c : ascii) (rest : string) :
  HasPrefix (ModPrefix pkg) "gopkg.in" = false ->
  Contains (s +:+ String c "") "/" = false ->
  semver.is_digit c = false ->
  c <> "."%char ->
  rest = "" \/ HasPrefix rest "/" = true ->
  FindModPath pkg (ModPrefix pkg +:+ "/" +:+ (s +:+ String c "") +:+ rest)
  = (ModPrefix pkg, true).
Proof.
  intros Hp Hseg Hd Hdot Hrest.
  rewrite (FindModPath_segment pkg _ rest Hseg Hrest).
  replace (ModPrefix pkg +:+ "/" +:+ s +:+ String c "")
    with ((ModPrefix pkg +:+ "/" +:+ s) +:+ String c "")
    by (rewrite !app_assoc; reflexivity).
  rewrite (SplitPathVersion_plain _ c); [| |exact Hd|exact Hdot].
  - rewrite (JoinPathMajor_no_major _ Hp). reflexivity.
  - rewrite !app_assoc.
    exact (HasPrefix_slash_mismatch "gopkg.in" (ModPrefix pkg) ("/" +:+ s +:+ String c "")
             eq_refl Hp eq_refl).
Qed.

Lemma FindModPath_unversioned_witness :
  FindModPath (mkPackage "" "" "github.com/pkg/errors")
    ("github.com/pkg/errors" +:+ "/" +:+ ("interna" +:+ String "l" "") +:+ "/x")
  = ("github.com/pkg/errors", true).
Proof.
  apply (FindModPath_unversioned (mkPackage "" "" "github.com/pkg/errors") "interna" "l" "/x");
    try reflexivity.
  - discriminate.
  - right. reflexivity.
Defined.

(** X7.  The path [JoinPathMajor] returns always begins with the path it
    was given: encoding only ever adds at the end. *)
Theorem JoinPathMajor_extends (path major : string) :
  HasPrefix (JoinPathMajor path major) path = true.
Proof.
  unfold JoinPathMajor. destruct (HasPrefix path "gopkg.in").
  - apply HasPrefix_app.
  - destruct (_ || _).
    + rewrite <- (app_nil_r path) at 1. apply HasPrefix_app.
    + destruct (negb (HasSuffix path "/")).
      * rewrite app_assoc. apply HasPrefix_app.
      * apply HasPrefix_app.
Qed.

Lemma Major_invalid (v : string) : semver.IsValid v = false -> semver.Major v = "".
Proof.
  unfold semver.IsValid, semver.Major. destruct (semver.parse v) as [pv ok].
  simpl. intros ->. reflexivity.
Qed.

(** X8.  For a package whose version is not a valid semantic version
    (an empty one, say), [ModPath] is the module prefix on a standard
    path, and the prefix followed by a bare dot on a gopkg.in path. *)
Theorem ModPath_invalid_version (pkg : Package) :
  semver.IsValid (Version pkg) = false ->
  ModPath pkg
  = if HasPrefix (ModPrefix pkg) "gopkg.in" then ModPrefix pkg +:+ "." else ModPrefix pkg.
Proof.
  intros Hv. unfold ModPath. rewrite (Major_invalid _ Hv). unfold JoinPathMajor.
  destruct (HasPrefix (ModPrefix pkg) "gopkg.in"); destruct (Incompatible pkg); reflexivity.
Qed.

Lemma ModPath_invalid_version_witness :
  ModPath (mkPackage "" "" "github.com/pkg/errors") = "github.com/pkg/errors"
  /\ ModPath (mkPackage "devel" "" "gopkg.in/yaml") = "gopkg.in/yaml.".
Proof.
  split.
  - apply (ModPath_invalid_version (mkPackage "" "" "github.com/pkg/errors")). reflexivity.
  - apply (ModPath_invalid_version (mkPackage "devel" "" "gopkg.in/yaml")). reflexivity.
Defined.

End PlainPaths.

(** ** More on the enumeration of direct dependencies *)

Section DirectRecords.
Import strings packages.

Lemma take_drop_bytes (n : nat) (s : string) : take_bytes n s +:+ drop_bytes n s = s.
Proof.
  revert s. induction n as [|n IH]; intros s; [reflexivity|].
  destruct s as [|x s]; [reflexivity|].
  simpl take_bytes. simpl drop_bytes. rewrite app_cons, IH. reflexivity.
Qed.

Lemma slice_to_from (s : string) (k : Z) : slice_to s k +:+ slice_from s k = s.
Proof. apply take_drop_bytes. Qed.

(** Whatever [SplitPathVersion] answers, its prefix and major version
    put together are the path it was given. *)
Lemma SplitPathVersion_recombine (path : string) :
  fst (fst (module.SplitPathVersion path)) +:+ snd (fst (module.SplitPathVersion path)) = path.
Proof.
  unfold module.SplitPathVersion, module.splitGopkgIn.
  destruct (module.scan_back true path (String.length path) false) as [n dot].
  repeat match goal with
         | |- context [if ?b then _ else _] => destruct b; cbv iota
         end;
    cbn [fst snd]; first [apply app_nil_r | apply slice_to_from].
Qed.

Lemma direct_record_prefix (m : Module) :
  HasPrefix (Path m) (ModPrefix (direct_record m)) = true.
Proof.
  unfold direct_record. cbn [ModPrefix].
  pose proof (SplitPathVersion_recombine (Path m)) as E.
  destruct (module.SplitPathVersion (Path m)) as [[prefix major] ok]. cbn [fst snd] in E.
  destruct ok.
  - rewrite <- E. apply HasPrefix_app.
  - rewrite <- (app_nil_r (Path m)) at 1. apply HasPrefix_app.
Qed.

(** X9.  Every record [Direct] returns comes from a direct module among
    the loaded packages: it carries that module's version and an empty
    package directory, its prefix is a prefix of the module's path, and
    the module's own path decomposes against it. *)
Theorem Direct_record_provenance (pkgs : list LoadedPackage) (r : Package) :
  r ∈ Direct_loop pkgs ->
  exists m : Module,
    mkLoaded (Some m) ∈ pkgs
    /\ direct_eligible m = true
    /\ Version r = ModVersion m
    /\ PkgDir r = ""
    /\ HasPrefix (Path m) (ModPrefix r) = true
    /\ snd (FindModPath r (Path m)) = true.
Proof.
  intros Hr. destruct (Direct_inv_loop pkgs) as (mods & Hrec & _ & _ & Hin & _).
  unfold Direct_loop in Hr. rewrite Hrec in Hr.
  apply list_elem_of_fmap in Hr as (m & -> & Hm).
  destruct (Hin m Hm) as [Hel Hpk]. exists m.
  repeat split; try assumption; try reflexivity.
  - apply direct_record_prefix.
  - rewrite FindModPath_ok_raw_prefix. apply direct_record_prefix.
Qed.

Lemma Direct_record_provenance_witness :
  exists m : Module,
    mkLoaded (Some m) ∈ [mkLoaded (Some (mkModule "github.com/pkg/errors/v2" "v2.1.0" false None false))]
    /\ direct_eligible m = true
    /\ Version (mkPackage "v2.1.0" "" "github.com/pkg/errors") = ModVersion m
    /\ PkgDir (mkPackage "v2.1.0" "" "github.com/pkg/errors") = ""
    /\ HasPrefix (Path m) (ModPrefix (mkPackage "v2.1.0" "" "github.com/pkg/errors")) = true
    /\ snd (FindModPath (mkPackage "v2.1.0" "" "github.com/pkg/errors") (Path m)) = true.
Proof.
  apply (Direct_record_provenance
           [mkLoaded (Some (mkModule "github.com/pkg/errors/v2" "v2.1.0" false None false))]
           (mkPackage "v2.1.0" "" "github.com/pkg/errors")).
  vm_compute. apply list_elem_of_here.
Defined.

Lemma Direct_step_skip (pkgs : list LoadedPackage) st pkg :
  Direct_inv pkgs st -> pkg ∈ pkgs -> Direct_step st pkg = st.
Proof.
  destruct st as [direct seen]. intros (mods & _ & _ & Hseen & _ & Hcov) Hpkg.
  simpl in Hseen. unfold Direct_step. destruct pkg as [[m|]]; simpl; [|reflexivity].
  change (negb (Indirect m) && negb (bool_decide (is_Some (Replace m))) && negb (Main m))
    with (direct_eligible m).
  destruct (direct_eligible m) eqn:Hel; [|reflexivity].
  assert (default false (seen !! Path m) = true) as ->; [|reflexivity].
  apply Hseen, Hcov; assumption.
Qed.

(** X10.  Packages met again add nothing: listing, after [pkgs], any
    packages that already occur in [pkgs] leaves the result as it is. *)
Theorem Direct_loop_repeated (pkgs more : list LoadedPackage) :
  (forall pkg, pkg ∈ more -> pkg ∈ pkgs) ->
  Direct_loop (pkgs ++ more) = Direct_loop pkgs.
Proof.
  intros Hmore. unfold Direct_loop. rewrite foldl_app. f_equal.
  pose proof (Direct_inv_loop pkgs) as Hinv.
  induction more as [|pkg more IH]; [reflexivity|]. simpl.
  rewrite (Direct_step_skip pkgs _ pkg Hinv) by (apply Hmore; left).
  apply IH. intros pkg' Hin. apply Hmore. right. exact Hin.
Qed.

Lemma Direct_loop_repeated_witness :
  Direct_loop ([mkLoaded (Some (mkModule "github.com/pkg/errors" "v0.9.1" false None false))]
               ++ [mkLoaded (Some (mkModule "github.com/pkg/errors" "v0.9.1" false None false))])
  = Direct_loop [mkLoaded (Some (mkModule "github.com/pkg/errors" "v0.9.1" false None false))].
Proof.
  apply (Direct_loop_repeated
           [mkLoaded (Some (mkModule "github.com/pkg/errors" "v0.9.1" false None false))]
           [mkLoaded (Some (mkModule "github.com/pkg/errors" "v0.9.1" false None false))]).
  intros pkg H. exact H.
Defined.

Lemma Direct_step_appends st pkg : fst st `prefix_of` fst (Direct_step st pkg).
Proof.
  destruct st as [direct seen]. unfold Direct_step.
  destruct (PkgModule pkg) as [m|]; [|reflexivity].
  destruct (_ && _); [|reflexivity]. simpl. apply prefix_app_r. reflexivity.
Qed.

(** X11.  The records are only ever appended to: the result for a list
    of packages is an initial part of the result for any longer list. *)
Theorem Direct_loop_grows (pkgs more : list LoadedPackage) :
  Direct_loop pkgs `prefix_of` Direct_loop (pkgs ++ more).
Proof.
  unfold Direct_loop. rewrite foldl_app.
  generalize (foldl Direct_step ([], ∅) pkgs). intros st.
  revert st. induction more as [|pkg more IH]; intros st; simpl; [reflexivity|].
  etransitivity; [apply (Direct_step_appends st pkg)|apply IH].
Qed.

(** X12.  [Direct] returns no record exactly when no loaded package
    belongs to a direct module. *)
Theorem Direct_loop_empty_iff (pkgs : list LoadedPackage) :
  Direct_loop pkgs = []
  <-> forall m, mkLoaded (Some m) ∈ pkgs -> direct_eligible m = false.
Proof.
  destruct (Direct_inv_loop pkgs) as (mods & Hrec & _ & _ & Hin & Hcov).
  unfold Direct_loop. rewrite Hrec. split.
  - intros E m Hm. apply fmap_nil_inv in E. subst mods.
    destruct (direct_eligible m) eqn:Hel; [|reflexivity].
    specialize (Hcov m Hm Hel). inversion Hcov.
  - intros Hnone. destruct mods as [|m mods]; [reflexivity|].
    destruct (Hin m ltac:(left)) as [Hel Hm].
    rewrite (Hnone m Hm) in Hel. discriminate Hel.
Qed.

End DirectRecords.

(** ** From a module path to a record and back *)

Section RecordRoundTrip.
Import strings packages.

(** X13.  For a module whose path carries a major version [/vN] on a
    standard path and whose version has that major, the record [Direct]
    builds has the unversioned path as prefix, and [ModPath] gives the
    module path back. *)
Theorem ModPath_direct_record (m : Module) (p ds : string) :
  Path m = p +:+ "/v" +:+ ds ->
  HasPrefix p "gopkg.in" = false ->
  HasSuffix p "/" = false ->
  major_number ds = true ->
  semver.Major (ModVersion m) = "v" +:+ ds ->
  Contains (ModVersion m) "+incompatible" = false ->
  ModPrefix (direct_record m) = p /\ ModPath (direct_record m) = Path m.
Proof.
  intros Hpath Hp Hs Hds Hmaj Hinc.
  assert (direct_record m = mkPackage (ModVersion m) "" p) as ->.
  { unfold direct_record. rewrite Hpath, (SplitPathVersion_versioned p ds Hp Hds). reflexivity. }
  split; [reflexivity|].
  unfold ModPath, Incompatible. cbn [Version ModPrefix].
  rewrite Hinc, Hmaj, Hpath. simpl andb. cbv iota.
  apply JoinPathMajor_versioned; assumption.
Qed.

Lemma ModPath_direct_record_witness :
  ModPrefix (direct_record (mkModule "github.com/go-redis/redis/v8" "v8.11.5" false None false))
  = "github.com/go-redis/redis"
  /\ ModPath (direct_record (mkModule "github.com/go-redis/redis/v8" "v8.11.5" false None false))
     = "github.com/go-redis/redis/v8".
Proof.
  apply (ModPath_direct_record
           (mkModule "github.com/go-redis/redis/v8" "v8.11.5" false None false)
           "github.com/go-redis/redis" "8"); reflexivity.
Defined.

(** X14.  For a module on a standard path that ends in neither a digit
    nor a dot, the record keeps the whole path as prefix; [ModPath]
    gives the module path back when the version has major [v0] or [v1],
    is invalid, or is marked [+incompatible]. *)
Theorem ModPath_direct_record_plain (m : Module) (a : string) (c : ascii) :
  Path m = a +:+ String c "" ->
  HasPrefix (Path m) "gopkg.in" = false ->
  semver.is_digit c = false ->
  c <> "."%char ->
  semver.Major (ModVersion m) = "v0" \/ semver.Major (ModVersion m) = "v1"
  \/ semver.Major (ModVersion m) = "" \/ Incompatible (direct_record m) = true ->
  ModPrefix (direct_record m) = Path m /\ ModPath (direct_record m) = Path m.
Proof.
  intros Hpath Hp Hd Hdot Hver.
  assert (HasPrefix (Path m) "gopkg.in/" = false) as Hg.
  { destruct (HasPrefix (Path m) "gopkg.in/") eqn:E; [|reflexivity].
    apply HasPrefix_inv in E as [r E].
    change "gopkg.in/" with ("gopkg.in" +:+ "/") in E. rewrite app_assoc in E.
    rewrite E, HasPrefix_app in Hp. discriminate Hp. }
  assert (ModPrefix (direct_record m) = Path m) as Hpre.
  { unfold direct_record. cbn [ModPrefix]. rewrite Hpath in Hg |- *.
    rewrite (SplitPathVersion_plain a c Hg Hd Hdot). reflexivity. }
  split; [exact Hpre|].
  unfold ModPath. rewrite Hpre, Hp. simpl negb. rewrite andb_true_r.
  destruct (Incompatible (direct_record m)) eqn:Hinc; [reflexivity|].
  unfold JoinPathMajor. rewrite Hp.
  change (Version (direct_record m)) with (ModVersion m).
  destruct Hver as [-> | [-> | [-> | H]]]; [reflexivity..|discriminate H].
Qed.

Lemma ModPath_direct_record_plain_witness :
  ModPrefix (direct_record (mkModule "github.com/docker/docker" "v20.10.7+incompatible" false None false))
  = "github.com/docker/docker"
  /\ ModPath (direct_record (mkModule "github.com/docker/docker" "v20.10.7+incompatible" false None false))
     = "github.com/docker/docker".
Proof.
  apply (ModPath_direct_record_plain
           (mkModule "github.com/docker/docker" "v20.10.7+incompatible" false None false)
           "github.com/docker/docke" "r"); try reflexivity.
  - discriminate.
  - right. right. right. reflexivity.
Defined.

End RecordRoundTrip.

(** ** More on [getcmd] *)

Section GetProperties.
Context (W : World).

Lemma trace_bind_ok {A B} (a : A) (k : A -> M B) :
  trace (bind ([], inr a) k) = trace (k a).
Proof. unfold bind, trace. destruct (k a). reflexivity. Qed.

Lemma getcmd_version_silent (fl : GetFlags) (m : ProxyModule W) (query : string) :
  fst (getcmd_version W fl m query) = [].
Proof.
  unfold getcmd_version.
  destruct (String.eqb query ""); [reflexivity|].
  destruct (String.eqb query "latest").
  - destruct (Latest W _ _); reflexivity.
  - destruct (negb (semver.IsValid query)); [reflexivity|].
    destruct (negb _); reflexivity.
Qed.

Lemma go_get_on (fl : GetFlags) (modprefix version pkgdir query : string) :
  get_goget fl = true ->
  go_get W fl modprefix version pkgdir query
  = ([Stdout ("go get " +:+ go_get_spec W modprefix version pkgdir query);
      Exec (get_dir fl) ["go"; "get"; go_get_spec W modprefix version pkgdir query]],
     match Run W (get_dir fl) ["go"; "get"; go_get_spec W modprefix version pkgdir query] with
     | Some e => inl e
     | None => inr tt
     end).
Proof.
  intros Hg. unfold go_get, go_get_spec. rewrite Hg.
  destruct (negb (String.eqb query "")); simpl; destruct (Run W _ _); reflexivity.
Qed.

(** X15.  With [-get] on, [getcmd] writes or runs nothing before the
    ["go get"] command: its trace is either empty, and then it returns an
    error, or begins with the printed ["go get"] line and the run of
    exactly that command. *)
Theorem getcmd_go_get_first (fl : GetFlags) :
  get_goget fl = true ->
  (trace (getcmd W fl) = [] /\ returned (getcmd W fl) <> None)
  \/ exists spec rest,
       trace (getcmd W fl)
       = Stdout ("go get " +:+ spec) :: Exec (get_dir fl) ["go"; "get"; spec] :: rest.
Proof.
  intros Hg. unfold getcmd.
  destruct (get_args fl) as [|arg0 [|arg1 args]];
    [left; split; [reflexivity|discriminate] | | left; split; [reflexivity|discriminate]].
  destruct (packages.SplitSpec arg0) as [pkgpath query].
  destruct (QueryPackage W pkgpath (get_cached fl)) as [err|m];
    [left; split; [reflexivity|discriminate]|].
  rewrite bind_lift_ok.
  destruct (SplitPath W _ pkgpath) as [[modpath pkgdir] ok].
  pose proof (getcmd_version_silent fl m query) as Hs.
  destruct (getcmd_version W fl m query) as [tr [e|[version query']]]; simpl in Hs; subst tr.
  - left. split; [reflexivity|discriminate].
  - right. exists (go_get_spec W (ModPrefix W (mod_Path W m)) version pkgdir query').
    rewrite trace_bind_ok. cbv beta iota.
    unfold getcmd_apply. rewrite (go_get_on fl _ _ _ _ Hg).
    destruct (Run W _ _) as [e|].
    + exists []. reflexivity.
    + simpl. destruct (negb (get_rewrite fl)); [exists []; reflexivity|].
      destruct (RewriteModule W _ _) as [tr [e|]]; exists tr; reflexivity.
Qed.

(** X16.  When ["go get"] fails, [getcmd] returns its error and the
    import paths are not rewritten: the trace ends with the command. *)
Theorem getcmd_go_get_failure
    (fl : GetFlags) (arg0 pkgpath query version query' : string)
    (m : ProxyModule W) (e : error) :
  get_args fl = [arg0] ->
  packages.SplitSpec arg0 = (pkgpath, query) ->
  QueryPackage W pkgpath (get_cached fl) = inr m ->
  getcmd_version W fl m query = ret (version, query') ->
  get_goget fl = true ->
  Run W (get_dir fl)
    ["go"; "get";
     go_get_spec W (ModPrefix W (mod_Path W m)) version
       (snd (fst (SplitPath W (ModPrefix W (mod_Path W m)) pkgpath))) query'] = Some e ->
  getcmd W fl
  = ([Stdout ("go get " +:+ go_get_spec W (ModPrefix W (mod_Path W m)) version
                (snd (fst (SplitPath W (ModPrefix W (mod_Path W m)) pkgpath))) query');
      Exec (get_dir fl)
        ["go"; "get";
         go_get_spec W (ModPrefix W (mod_Path W m)) version
           (snd (fst (SplitPath W (ModPrefix W (mod_Path W m)) pkgpath))) query']],
     inl e).
Proof.
  intros Hargs Hsplit Hq Hver Hg Hrun.
  rewrite (getcmd_unfold W fl arg0 pkgpath query m Hargs Hsplit Hq), Hver, bind_ret.
  cbn [fst snd]. unfold getcmd_apply. rewrite (go_get_on fl _ _ _ _ Hg), Hrun. reflexivity.
Qed.

(** X17.  The query ["latest"] asks the proxy afresh and pins the result:
    the newest version found is both the target version and the query
    given to ["go get"]; a failed lookup is returned as it is, before
    anything is run. *)
Theorem getcmd_latest (fl : GetFlags) (arg0 pkgpath : string) (m : ProxyModule W) :
  get_args fl = [arg0] ->
  packages.SplitSpec arg0 = (pkgpath, "latest") ->
  QueryPackage W pkgpath (get_cached fl) = inr m ->
  getcmd W fl
  = match Latest W (mod_Path W m) (get_cached fl) with
    | inl err => fail err
    | inr latest =>
        getcmd_apply W fl (ModPrefix W (mod_Path W m))
          (snd (fst (SplitPath W (ModPrefix W (mod_Path W m)) pkgpath)))
          (MaxVersion W latest "" (get_pre fl)) (MaxVersion W latest "" (get_pre fl))
    end.
Proof.
  intros Hargs Hsplit Hq.
  rewrite (getcmd_unfold W fl arg0 pkgpath "latest" m Hargs Hsplit Hq).
  unfold getcmd_version. simpl String.eqb. cbv iota.
  destruct (Latest W _ _) as [err|latest]; [reflexivity|].
  rewrite bind_lift_ok, bind_ret. reflexivity.
Qed.

(** X18.  Without a query the target is the newest version the proxy
    knows for the module, and ["go get"] is given the bare path. *)
Theorem getcmd_unqualified (fl : GetFlags) (arg0 pkgpath : string) (m : ProxyModule W) :
  get_args fl = [arg0] ->
  packages.SplitSpec arg0 = (pkgpath, "") ->
  QueryPackage W pkgpath (get_cached fl) = inr m ->
  getcmd W fl
  = getcmd_apply W fl (ModPrefix W (mod_Path W m))
      (snd (fst (SplitPath W (ModPrefix W (mod_Path W m)) pkgpath)))
      (MaxVersion W m "" (get_pre fl)) ""
  /\ go_get_spec W (ModPrefix W (mod_Path W m)) (MaxVersion W m "" (get_pre fl))
       (snd (fst (SplitPath W (ModPrefix W (mod_Path W m)) pkgpath))) ""
     = JoinPath W (ModPrefix W (mod_Path W m)) (MaxVersion W m "" (get_pre fl))
         (snd (fst (SplitPath W (ModPrefix W (mod_Path W m)) pkgpath))).
Proof.
  intros Hargs Hsplit Hq. split; [|reflexivity].
  rewrite (getcmd_unfold W fl arg0 pkgpath "" m Hargs Hsplit Hq).
  unfold getcmd_version. simpl String.eqb. cbv iota. rewrite bind_ret. reflexivity.
Qed.

(** X19.  An explicit version that the proxy corroborates: the target
    version is the proxy's string (which may carry [+incompatible]),
    while ["go get"] is still given the query as typed. *)
Theorem getcmd_corroborated
    (fl : GetFlags) (arg0 pkgpath query v : string) (m : ProxyModule W) :
  get_args fl = [arg0] ->
  packages.SplitSpec arg0 = (pkgpath, query) ->
  QueryPackage W pkgpath (get_cached fl) = inr m ->
  query <> "" -> query <> "latest" ->
  semver.IsValid query = true ->
  MaxVersion W m query (get_pre fl) = v ->
  v <> "" ->
  getcmd W fl
  = getcmd_apply W fl (ModPrefix W (mod_Path W m))
      (snd (fst (SplitPath W (ModPrefix W (mod_Path W m)) pkgpath))) v query.
Proof.
  intros Hargs Hsplit Hq Hne Hnl Hvalid Hmax Hv.
  rewrite (getcmd_unfold W fl arg0 pkgpath query m Hargs Hsplit Hq).
  unfold getcmd_version.
  rewrite (eqb_false_of_ne _ _ Hne), (eqb_false_of_ne _ _ Hnl), Hvalid, Hmax.
  rewrite (eqb_false_of_ne _ _ Hv). simpl negb. cbv iota. rewrite bind_ret. reflexivity.
Qed.

End GetProperties.

Lemma getcmd_go_get_first_witness :
  (trace (getcmd sample_world (sample_flags "example.com/lib@v3.0.0")) = []
   /\ returned (getcmd sample_world (sample_flags "example.com/lib@v3.0.0")) <> None)
  \/ exists spec rest,
       trace (getcmd sample_world (sample_flags "example.com/lib@v3.0.0"))
       = Stdout ("go get " +:+ spec) :: Exec "." ["go"; "get"; spec] :: rest.
Proof.
  apply (getcmd_go_get_first sample_world (sample_flags "example.com/lib@v3.0.0")).
  reflexivity.
Defined.

Lemma getcmd_go_get_failure_witness :
  getcmd sample_world_failing_run (sample_flags "example.com/lib@v3.0.0")
  = ([Stdout "go get example.com/lib/v3@v3.0.0";
      Exec "." ["go"; "get"; "example.com/lib/v3@v3.0.0"]],
     inl (ErrorString "exit status 1")).
Proof.
  apply (getcmd_go_get_failure sample_world_failing_run
           (sample_flags "example.com/lib@v3.0.0")
           "example.com/lib@v3.0.0" "example.com/lib" "v3.0.0"
           "v3.0.0+incompatible" "v3.0.0" "example.com/lib" (ErrorString "exit status 1"));
    reflexivity.
Defined.

Lemma getcmd_latest_witness :
  getcmd sample_world (sample_flags "example.com/lib@latest")
  = getcmd_apply sample_world (sample_flags "example.com/lib@latest")
      "example.com/lib" "" "v2.3.1" "v2.3.1".
Proof.
  apply (getcmd_latest sample_world (sample_flags "example.com/lib@latest")
           "example.com/lib@latest" "example.com/lib" "example.com/lib");
    reflexivity.
Defined.

Lemma getcmd_unqualified_witness :
  getcmd sample_world (sample_flags "example.com/lib")
  = getcmd_apply sample_world (sample_flags "example.com/lib")
      "example.com/lib" "" "v2.3.1" "".
Proof.
  apply (getcmd_unqualified sample_world (sample_flags "example.com/lib")
           "example.com/lib" "example.com/lib" "example.com/lib");
    reflexivity.
Defined.

Lemma getcmd_corroborated_witness :
  getcmd sample_world_failing_run (sample_flags "example.com/lib@v3.0.0")
  = getcmd_apply sample_world_failing_run (sample_flags "example.com/lib@v3.0.0")
      "example.com/lib" "" "v3.0.0+incompatible" "v3.0.0".
Proof.
  apply (getcmd_corroborated sample_world_failing_run
           (sample_flags "example.com/lib@v3.0.0")
           "example.com/lib@v3.0.0" "example.com/lib" "v3.0.0" "v3.0.0+incompatible"
           "example.com/lib");
    try reflexivity; discriminate.
Defined.

(** ** The rewrite callback of [get] *)

Section RewriteCallback.
Context (W : World).

(** X20.  The callback either skips the import path, printing nothing,
    or rewrites it: then the path is under the module prefix, it is in
    the package directory asked for (if one was), the new path differs
    from the old one, and the one line printed shows both. *)
Theorem get_rewrite_fn_cases (modprefix version pkgdir name path : string) :
  get_rewrite_fn W modprefix version pkgdir name path = ([], ("", Some ErrSkip))
  \/ (snd (SplitPath W modprefix path) = true
      /\ (pkgdir = "" \/ pkgdir = snd (fst (SplitPath W modprefix path)))
      /\ JoinPath W modprefix version (snd (fst (SplitPath W modprefix path))) <> path
      /\ get_rewrite_fn W modprefix version pkgdir name path
         = ([Stdout (name +:+ ": " +:+ path +:+ " -> "
                     +:+ JoinPath W modprefix version (snd (fst (SplitPath W modprefix path))))],
            (JoinPath W modprefix version (snd (fst (SplitPath W modprefix path))), None))).
Proof.
  unfold get_rewrite_fn.
  destruct (SplitPath W modprefix path) as [[modpath pkgdir0] ok]. cbn [fst snd].
  destruct ok; simpl negb; cbv iota; [|left; reflexivity].
  destruct (String.eqb_spec pkgdir "") as [Hp|Hp]; simpl negb; simpl andb; cbv iota.
  - destruct (String.eqb_spec (JoinPath W modprefix version pkgdir0) path) as [E|E];
      [left; reflexivity|right]. repeat split; auto.
  - destruct (String.eqb_spec pkgdir pkgdir0) as [Hd|Hd]; simpl negb; cbv iota;
      [|left; reflexivity].
    destruct (String.eqb_spec (JoinPath W modprefix version pkgdir0) path) as [E|E];
      [left; reflexivity|right]. repeat split; auto.
Qed.

End RewriteCallback.

(** ** More on [listcmd] and the earlier [list] *)

Section ListProperties.
Context (W : World).

Lemma concat_map_Permutation {A B} (f : A -> list B) (l1 l2 : list A) :
  Permutation l1 l2 -> Permutation (concat (map f l1)) (concat (map f l2)).
Proof.
  induction 1 as [|x l1 l2 _ IH|x y l|l1 l2 l3 _ IH1 _ IH2]; simpl.
  - reflexivity.
  - apply Permutation_app_head, IH.
  - apply Permutation_app_swap_app.
  - etransitivity; eassumption.
Qed.

Lemma elem_of_concat_map {A B} (f : A -> list B) (l : list A) (y : B) :
  y ∈ concat (map f l) -> exists x, x ∈ l /\ y ∈ f x.
Proof.
  induction l as [|x l IH]; simpl; intros H; [inversion H|].
  apply elem_of_app in H as [H|H].
  - exists x. split; [left|exact H].
  - destruct (IH H) as (x' & Hx' & Hy). exists x'. split; [right; exact Hx'|exact Hy].
Qed.

Lemma list_task_length (fl : ListFlags) (dep : Dependency) :
  (length (fst (list_task W fl dep)) <= 1)%nat.
Proof.
  unfold list_task. destruct (Latest W _ _) as [err|m]; [simpl; lia|].
  destruct (list_major fl && _); [simpl; lia|].
  destruct (Compare W _ _ <=? 0); simpl; lia.
Qed.

Lemma concat_map_length {A B} (f : A -> list B) (l : list A) :
  (forall x, length (f x) <= 1)%nat -> (length (concat (map f l)) <= length l)%nat.
Proof.
  intros Hf. induction l as [|x l IH]; simpl; [lia|].
  rewrite List.length_app. specialize (Hf x). lia.
Qed.

(** The runs of [listcmd] once the dependencies are known. *)
Lemma listcmd_runs (fl : ListFlags) (deps : list Dependency) (run : M unit) :
  Direct W (list_dir fl) = inr deps ->
  listcmd W fl run ->
  exists finished,
    Permutation finished (list_started W deps)
    /\ run = (concat (map (fun dep => fst (list_task W fl dep)) finished), inr tt).
Proof.
  intros Hdeps Hrun. destruct Hrun as [err Herr | deps' finished Hdeps' Hperm]; [congruence|].
  assert (deps' = deps) as -> by congruence.
  exists finished. split; [exact Hperm|].
  unfold group_run. rewrite group_Wait_all_nil. reflexivity.
Qed.

(** X21.  The order in which the lookups finish does not matter: any two
    runs of [listcmd] return the same error or nil and write the same
    lines, up to their order. *)
Theorem listcmd_order_independent (fl : ListFlags) (run1 run2 : M unit) :
  listcmd W fl run1 ->
  listcmd W fl run2 ->
  returned run1 = returned run2 /\ Permutation (trace run1) (trace run2).
Proof.
  intros H1 H2. destruct (Direct W (list_dir fl)) as [err|deps] eqn:Hd.
  - destruct H1 as [e1 He1|d1 f1 Hd1 _]; [|congruence].
    destruct H2 as [e2 He2|d2 f2 Hd2 _]; [|congruence].
    assert (e1 = e2) as -> by congruence. split; reflexivity.
  - destruct (listcmd_runs fl deps run1 Hd H1) as (f1 & Hp1 & ->).
    destruct (listcmd_runs fl deps run2 Hd H2) as (f2 & Hp2 & ->).
    split; [reflexivity|]. unfold trace. cbn [fst].
    apply concat_map_Permutation. rewrite Hp1, Hp2. reflexivity.
Qed.

(** X22.  A dependency is announced on standard output only if it is not
    private, its lookup succeeded, and the newest version compares
    greater than the current one (and, with [-major], so do their major
    versions); the line names the dependency and both versions. *)
Theorem listcmd_reports_only_newer
    (fl : ListFlags) (deps : list Dependency) (run : M unit) (line : string) :
  Direct W (list_dir fl) = inr deps ->
  listcmd W fl run ->
  Stdout line ∈ trace run ->
  exists dep m,
    dep ∈ deps
    /\ MatchPrefixPatterns W (Getenv W "GOPRIVATE") (dep_Path dep) = false
    /\ Latest W (dep_Path dep) (list_cached fl) = inr m
    /\ 0 < Compare W (MaxVersion W m "" (list_pre fl)) (dep_Version dep)
    /\ (list_major fl = true ->
        0 < Compare W (semver.Major (MaxVersion W m "" (list_pre fl)))
              (semver.Major (dep_Version dep)))
    /\ line = dep_Path dep +:+ ": " +:+ dep_Version dep
              +:+ " [latest " +:+ MaxVersion W m "" (list_pre fl) +:+ "]".
Proof.
  intros Hdeps Hrun Hline.
  destruct (listcmd_runs fl deps run Hdeps Hrun) as (finished & Hperm & ->).
  unfold trace in Hline. cbn [fst] in Hline.
  apply elem_of_concat_map in Hline as (dep & Hdep & Hline).
  rewrite Hperm in Hdep. apply list_elem_of_filter in Hdep as [Hpriv Hdep].
  unfold list_task in Hline.
  destruct (Latest W (dep_Path dep) (list_cached fl)) as [err|m] eqn:Hl.
  { apply list_elem_of_singleton in Hline. discriminate Hline. }
  exists dep, m. cbn zeta in Hline.
  destruct (list_major fl) eqn:Hmaj; simpl andb in Hline.
  - destruct (Compare W (semver.Major _) _ <=? 0) eqn:Hc1; [inversion Hline|].
    destruct (Compare W (MaxVersion W m "" (list_pre fl)) _ <=? 0) eqn:Hc2; [inversion Hline|].
    apply list_elem_of_singleton in Hline. injection Hline as ->.
    apply Z.leb_gt in Hc1, Hc2. repeat split; auto.
  - destruct (Compare W (MaxVersion W m "" (list_pre fl)) _ <=? 0) eqn:Hc2; [inversion Hline|].
    apply list_elem_of_singleton in Hline. injection Hline as ->.
    apply Z.leb_gt in Hc2. repeat split; auto. discriminate.
Qed.

(** X23.  A run of [listcmd] writes at most one line for each dependency
    that is not private, and nothing else. *)
Theorem listcmd_one_line_each (fl : ListFlags) (deps : list Dependency) (run : M unit) :
  Direct W (list_dir fl) = inr deps ->
  listcmd W fl run ->
  (length (trace run) <= length (list_started W deps))%nat
  /\ (length (list_started W deps) <= length deps)%nat.
Proof.
  intros Hdeps Hrun.
  destruct (listcmd_runs fl deps run Hdeps Hrun) as (finished & Hperm & ->).
  split; [|apply length_filter].
  unfold trace. cbn [fst]. rewrite <- (Permutation_length Hperm).
  apply concat_map_length. intros dep. apply list_task_length.
Qed.

(** X24.  The earlier, sequential [list] is the run of [listcmd] in which
    the lookups finish in the order of the dependencies, but for the
    stream: it writes the "failed" lines to standard output too.  It
    returns the error of [packages.Direct], or else nil. *)
Theorem list_handler_is_listcmd_in_order (fl : ListFlags) :
  match Direct W (list_dir fl) with
  | inl err => list_handler W fl = fail err
  | inr deps =>
      listcmd W fl (group_run W fl (list_started W deps))
      /\ list_handler W fl
         = (map to_stdout (trace (group_run W fl (list_started W deps))), inr tt)
  end.
Proof.
  unfold list_handler. destruct (Direct W (list_dir fl)) as [err|deps] eqn:Hd; [reflexivity|].
  split; [apply (listcmd_group W fl deps); [exact Hd|reflexivity]|].
  rewrite bind_lift_ok. f_equal.
  unfold group_run, trace. rewrite group_Wait_all_nil. cbn [check fst].
  unfold list_started. clear Hd. induction deps as [|dep deps IH]; [reflexivity|].
  rewrite filter_cons. cbn [map concat]. rewrite IH at 1. clear IH.
  unfold list_body at 1.
  destruct (MatchPrefixPatterns W (Getenv W "GOPRIVATE") (dep_Path dep)) eqn:Hp.
  - rewrite decide_False by congruence. reflexivity.
  - rewrite decide_True by reflexivity. cbn [map concat]. rewrite map_app. f_equal.
    unfold list_task. destruct (Latest W _ _) as [err|m]; [reflexivity|].
    cbn zeta. destruct (list_major fl && _); [reflexivity|].
    destruct (Compare W _ _ <=? 0); reflexivity.
Qed.

End ListProperties.

Lemma sample_listcmd_in_order :
  listcmd sample_world sample_list_flags
    (group_run sample_world sample_list_flags
       [mkDep "example.com/gone" "v1.0.0"; mkDep "example.com/lib" "v1.4.0"]).
Proof.
  apply (listcmd_group sample_world sample_list_flags
           [mkDep "example.com/gone" "v1.0.0"; mkDep "example.com/lib" "v1.4.0"]);
    reflexivity.
Qed.

Lemma sample_listcmd_reversed :
  listcmd sample_world sample_list_flags
    (group_run sample_world sample_list_flags
       [mkDep "example.com/lib" "v1.4.0"; mkDep "example.com/gone" "v1.0.0"]).
Proof.
  apply (listcmd_group sample_world sample_list_flags
           [mkDep "example.com/gone" "v1.0.0"; mkDep "example.com/lib" "v1.4.0"]);
    [reflexivity|apply perm_swap].
Qed.

Lemma listcmd_order_independent_witness :
  Permutation
    [Stderr "example.com/gone: failed: 404 Not Found";
     Stdout "example.com/lib: v1.4.0 [latest v2.3.1]"]
    [Stdout "example.com/lib: v1.4.0 [latest v2.3.1]";
     Stderr "example.com/gone: failed: 404 Not Found"].
Proof.
  apply (listcmd_order_independent sample_world sample_list_flags _ _
           sample_listcmd_in_order sample_listcmd_reversed).
Defined.

Lemma listcmd_reports_only_newer_witness :
  exists dep m,
    dep ∈ [mkDep "example.com/gone" "v1.0.0"; mkDep "example.com/lib" "v1.4.0"]
    /\ MatchPrefixPatterns sample_world (Getenv sample_world "GOPRIVATE") (dep_Path dep) = false
    /\ Latest sample_world (dep_Path dep) true = inr m
    /\ 0 < Compare sample_world (MaxVersion sample_world m "" false) (dep_Version dep)
    /\ (false = true ->
        0 < Compare sample_world (semver.Major (MaxVersion sample_world m "" false))
              (semver.Major (dep_Version dep)))
    /\ "example.com/lib: v1.4.0 [latest v2.3.1]"
       = dep_Path dep +:+ ": " +:+ dep_Version dep
         +:+ " [latest " +:+ MaxVersion sample_world m "" false +:+ "]".
Proof.
  apply (listcmd_reports_only_newer sample_world sample_list_flags
           [mkDep "example.com/gone" "v1.0.0"; mkDep "example.com/lib" "v1.4.0"]
           _ "example.com/lib: v1.4.0 [latest v2.3.1]" eq_refl sample_listcmd_in_order).
  vm_compute. right. left.
Defined.

Lemma listcmd_one_line_each_witness :
  (length (trace (group_run sample_world sample_list_flags
                    [mkDep "example.com/gone" "v1.0.0"; mkDep "example.com/lib" "v1.4.0"]))
   <= 2)%nat.
Proof.
  apply (listcmd_one_line_each sample_world sample_list_flags
           [mkDep "example.com/gone" "v1.0.0"; mkDep "example.com/lib" "v1.4.0"]
           _ eq_refl sample_listcmd_in_order).
Defined.

(** ** [pathcmd] *)

Section PathProperties.
Context (W : World) (T : ModTools).

(** [pathcmd] once [go.mod] is found, read and parsed, with a module
    declared in it. *)
Lemma pathcmd_unfold (fl : PathFlags) (name data oldmodpath : string) :
  FindModFile T (path_dir fl) = inr name ->
  ReadFile T name = inr data ->
  ParseLax T name data = inr (Some oldmodpath) ->
  pathcmd W T fl
  = match pathcmd_target T fl oldmodpath with
    | inl err => Some (fail err)
    | inr version =>
        if negb (semver.IsValid version) then
          Some (fail (ErrorString ("invalid version: " +:+ Quote T version)))
        else Some (pathcmd_apply W fl (ModPrefix W oldmodpath)
                     (ModPrefix W (pathcmd_modpath fl oldmodpath)) version)
    end.
Proof.
  intros Hf Hr Hp. unfold pathcmd, pathcmd_target, pathcmd_modpath.
  rewrite Hf, Hr, Hp. cbv zeta.
  destruct (String.eqb (hd "" (path_args fl)) ""); reflexivity.
Qed.

(** X25.  The version is checked before anything is written: with a
    version (given, found in the module path, or incremented) that is
    not a valid semantic version, [pathcmd] returns the error
    "invalid version" and has printed and run nothing. *)
Theorem pathcmd_invalid_version
    (fl : PathFlags) (name data oldmodpath version : string) :
  FindModFile T (path_dir fl) = inr name ->
  ReadFile T name = inr data ->
  ParseLax T name data = inr (Some oldmodpath) ->
  pathcmd_target T fl oldmodpath = inr version ->
  semver.IsValid version = false ->
  pathcmd W T fl = Some (fail (ErrorString ("invalid version: " +:+ Quote T version))).
Proof.
  intros Hf Hr Hp Hv Hinv.
  rewrite (pathcmd_unfold fl name data oldmodpath Hf Hr Hp), Hv, Hinv. reflexivity.
Qed.

(** X26.  Incrementing an unversioned module: without [-version], for a
    module path in which [ModMajor] finds no major version, [-next] asks
    for the successor of ["v1"], and the module is renamed to the prefix
    joined with that version. *)
Theorem pathcmd_next_from_unversioned
    (fl : PathFlags) (name data oldmodpath v next : string) (ok : bool) :
  FindModFile T (path_dir fl) = inr name ->
  ReadFile T name = inr data ->
  ParseLax T name data = inr (Some oldmodpath) ->
  path_args fl = [] ->
  path_version fl = "" ->
  path_next fl = true ->
  ModMajor T oldmodpath = (v, ok) ->
  ok = false \/ v = "" ->
  NextMajor T "v1" = inr next ->
  semver.IsValid next = true ->
  pathcmd W T fl
  = Some (pathcmd_apply W fl (ModPrefix W oldmodpath) (ModPrefix W oldmodpath) next).
Proof.
  intros Hf Hr Hp Hargs Hver Hnext Hmaj Hnone Hn Hvalid.
  rewrite (pathcmd_unfold fl name data oldmodpath Hf Hr Hp).
  unfold pathcmd_target, pathcmd_modpath.
  rewrite Hargs. cbn [hd]. simpl String.eqb. cbv iota.
  assert (pathcmd_version T fl oldmodpath = "v1") as ->.
  { unfold pathcmd_version. rewrite Hver, Hmaj. simpl String.eqb. cbv iota.
    destruct Hnone as [-> | ->]; [reflexivity|]. destruct ok; reflexivity. }
  rewrite Hnext, Hn, Hvalid. reflexivity.
Qed.

(** X27.  With [-rewrite=false], [pathcmd] changes nothing: whenever it
    returns, it has at most printed the one "module" line and run no
    command; and if it printed the line, it returns nil. *)
Theorem pathcmd_dry_run (fl : PathFlags) (r : M unit) :
  path_rewrite fl = false ->
  pathcmd W T fl = Some r ->
  (trace r = [] /\ returned r <> None)
  \/ (exists modpath, trace r = [Stdout ("module " +:+ modpath)]) /\ returned r = None.
Proof.
  intros Hrw. unfold pathcmd.
  destruct (FindModFile T _) as [e|name]; [intros [= <-]; left; split; [reflexivity|discriminate]|].
  destruct (ReadFile T _) as [e|data]; [intros [= <-]; left; split; [reflexivity|discriminate]|].
  destruct (ParseLax T _ _) as [e|file]; [intros [= <-]; left; split; [reflexivity|discriminate]|].
  cbv zeta. destruct (if String.eqb _ "" then file else _) as [modpath|]; [|discriminate].
  destruct (if path_next fl then _ else _) as [e|version];
    [intros [= <-]; left; split; [reflexivity|discriminate]|].
  destruct (negb (semver.IsValid version));
    [intros [= <-]; left; split; [reflexivity|discriminate]|].
  destruct file as [oldmodpath|]; [|discriminate].
  intros [= <-]. right. unfold pathcmd_apply. rewrite Hrw.
  split; [eexists; reflexivity|reflexivity].
Qed.

(** X28.  When [go mod edit] fails, [pathcmd] returns its error and the
    import paths are not rewritten: the trace is the "module" line and
    the command. *)
Theorem pathcmd_edit_failure
    (fl : PathFlags) (name data oldmodpath version : string) (e : error) :
  FindModFile T (path_dir fl) = inr name ->
  ReadFile T name = inr data ->
  ParseLax T name data = inr (Some oldmodpath) ->
  pathcmd_target T fl oldmodpath = inr version ->
  semver.IsValid version = true ->
  path_rewrite fl = true ->
  Run W "" ["go"; "mod"; "edit"; "-module";
            JoinPath W (ModPrefix W (pathcmd_modpath fl oldmodpath)) version ""] = Some e ->
  pathcmd W T fl
  = Some ([Stdout ("module "
                   +:+ JoinPath W (ModPrefix W (pathcmd_modpath fl oldmodpath)) version "");
           Exec "" ["go"; "mod"; "edit"; "-module";
                    JoinPath W (ModPrefix W (pathcmd_modpath fl oldmodpath)) version ""]],
          inl e).
Proof.
  intros Hf Hr Hp Hv Hvalid Hrw Hrun.
  rewrite (pathcmd_unfold fl name data oldmodpath Hf Hr Hp), Hv, Hvalid.
  unfold pathcmd_apply. rewrite Hrw, Hrun. reflexivity.
Qed.

End PathProperties.

Lemma pathcmd_invalid_version_witness :
  pathcmd sample_world sample_tools (sample_path_flags "2" true)
  = Some (fail (ErrorString ("invalid version: " +:+ Quote sample_tools "2"))).
Proof.
  apply (pathcmd_invalid_version sample_world sample_tools (sample_path_flags "2" true)
           "./go.mod" "module example.com/lib" "example.com/lib" "2");
    reflexivity.
Defined.

Lemma pathcmd_next_from_unversioned_witness :
  pathcmd sample_world sample_tools
    {| path_next := true; path_version := ""; path_rewrite := false;
       path_dir := "."; path_args := [] |}
  = Some ([Stdout "module example.com/lib/v2"], inr tt).
Proof.
  apply (pathcmd_next_from_unversioned sample_world sample_tools
           {| path_next := true; path_version := ""; path_rewrite := false;
              path_dir := "."; path_args := [] |}
           "./go.mod" "module example.com/lib" "example.com/lib" "" "v2" true);
    try reflexivity.
  right. reflexivity.
Defined.

Lemma pathcmd_dry_run_witness :
  (trace ([Stdout "module example.com/lib/v3"], inr tt : error + unit) = []
   /\ returned ([Stdout "module example.com/lib/v3"], inr tt : error + unit) <> None)
  \/ (exists modpath,
        trace ([Stdout "module example.com/lib/v3"], inr tt : error + unit)
        = [Stdout ("module " +:+ modpath)])
     /\ returned ([Stdout "module example.com/lib/v3"], inr tt : error + unit) = None.
Proof.
  apply (pathcmd_dry_run sample_world sample_tools (sample_path_flags "v3.0.0" false));
    reflexivity.
Defined.

Lemma pathcmd_edit_failure_witness :
  pathcmd sample_world_failing_run sample_tools (sample_path_flags "v3.0.0" true)
  = Some ([Stdout "module example.com/lib/v3";
           Exec "" ["go"; "mod"; "edit"; "-module"; "example.com/lib/v3"]],
          inl (ErrorString "exit status 1")).
Proof.
  apply (pathcmd_edit_failure sample_world_failing_run sample_tools
           (sample_path_flags "v3.0.0" true)
           "./go.mod" "module example.com/lib" "example.com/lib" "v3.0.0"
           (ErrorString "exit status 1"));
    reflexivity.
Defined.

(** ** Paths under the gopkg.in convention *)

Section GopkgPaths.
Import strings packages.

Lemma HasPrefix_app_l (p q x : string) :
  HasPrefix p q = true -> HasPrefix (p +:+ x) q = true.
Proof.
  intros H. apply HasPrefix_inv in H as [r ->]. rewrite app_assoc. apply HasPrefix_app.
Qed.

(** [FindModPath] on a path that continues the module prefix without a
    slash: the candidate is the prefix with what follows up to the next
    slash. *)
Lemma FindModPath_continued (pkg : Package) (seg rest : string) :
  HasPrefix (seg +:+ rest) "/" = false ->
  Contains seg "/" = false ->
  rest = "" \/ HasPrefix rest "/" = true ->
  FindModPath pkg (ModPrefix pkg +:+ seg +:+ rest)
  = let '(_, major, ok) := module.SplitPathVersion (ModPrefix pkg +:+ seg) in
    if ok then (JoinPathMajor (ModPrefix pkg) major, true) else (ModPrefix pkg, true).
Proof.
  intros Hlead Hseg Hrest. unfold FindModPath. cbv zeta.
  rewrite HasPrefix_app. simpl negb. cbv iota.
  rewrite slice_from_app, Hlead, slice_from_app.
  destruct Hrest as [-> | Hslash].
  - rewrite app_nil_r, (Index_absent _ _ Hseg). simpl Z.leb. cbv iota.
    rewrite slice_to_len. reflexivity.
  - apply HasPrefix_inv in Hslash as [r ->].
    change ("/" +:+ r) with (String "/" r).
    rewrite (Index_byte_first "/" seg r Hseg).
    assert ((0 <=? len seg) = true) as -> by (apply Z.leb_le, len_nonneg).
    replace (ModPrefix pkg +:+ seg +:+ String "/" r)
      with ((ModPrefix pkg +:+ seg) +:+ String "/" r)
      by (rewrite !app_assoc; reflexivity).
    replace (len (ModPrefix pkg) + len seg) with (len (ModPrefix pkg +:+ seg))
      by (rewrite !len_app; lia).
    rewrite slice_to_app. reflexivity.
Qed.

Lemma gopkg_number_inv (ds : string) :
  gopkg_number ds = true ->
  String.length ds = semver.digits ds
  /\ exists d ds', ds = String d ds' /\ (ds = "0" \/ Ascii.eqb d "0"%char = false).
Proof.
  unfold gopkg_number. intros H.
  apply andb_true_iff in H as [H H0]. apply andb_true_iff in H as [Hd He].
  apply Nat.eqb_eq in Hd. split; [exact Hd|].
  destruct ds as [|d ds']; [simpl in He; discriminate He|]. exists d, ds'.
  split; [reflexivity|].
  apply orb_true_iff in H0 as [H0|H0].
  - left. apply String.eqb_eq. exact H0.
  - right. change (HasPrefix (String d ds') "0") with (Ascii.eqb "0" d && true) in H0.
    rewrite andb_true_r in H0. rewrite Ascii.eqb_sym.
    destruct (Ascii.eqb "0" d); [simpl in H0; discriminate H0|reflexivity].
Qed.

Lemma take_bytes_length_le (n : nat) (s : string) :
  (n <= String.length s)%nat -> String.length (take_bytes n s) = n.
Proof.
  revert s. induction n as [|n IH]; intros s Hn; [reflexivity|].
  destruct s as [|x s]; simpl in Hn; [lia|]. simpl. rewrite IH by lia. reflexivity.
Qed.

(** A path that ends in a digit does not end in ["-unstable"]. *)
Lemma HasSuffix_unstable_digits (pre ds : string) :
  String.length ds = semver.digits ds ->
  ds <> "" ->
  HasSuffix (pre +:+ ds) "-unstable" = false.
Proof.
  intros Hd Hne. unfold HasSuffix.
  destruct (len "-unstable" <=? len (pre +:+ ds)) eqn:Hlen; [|reflexivity].
  simpl andb. apply String.eqb_neq. intros E.
  apply Z.leb_le in Hlen. unfold len in Hlen, E. simpl String.length in Hlen, E.
  unfold slice_from in E.
  set (k := Z.to_nat (Z.of_nat (String.length (pre +:+ ds)) - Z.of_nat 9)) in E.
  assert (String.length (pre +:+ ds) = (k + 9)%nat) as Hk by (subst k; lia).
  pose proof (take_drop_bytes k (pre +:+ ds)) as Hsplit. rewrite E in Hsplit.
  assert (String.length (take_bytes k (pre +:+ ds)) = k) as Hta
    by (apply take_bytes_length_le; lia).
  assert (String.get (k + 8) (pre +:+ ds) = Some "e"%char) as Hget.
  { rewrite <- Hsplit, <- Hta at 1. rewrite get_app_r. reflexivity. }
  assert (0 < String.length ds)%nat as Hpos by (destruct ds; [congruence|simpl; lia]).
  rewrite length_app in Hk.
  replace (k + 8)%nat with (String.length pre + (String.length ds - 1))%nat in Hget by lia.
  rewrite get_app_r in Hget.
  pose proof (all_digits_get ds Hd _ _ Hget) as Hdig. discriminate Hdig.
Qed.

(** [SplitPathVersion] takes a [.vN] suffix off a gopkg.in path. *)
Lemma SplitPathVersion_gopkg (p ds : string) :
  HasPrefix p "gopkg.in/" = true ->
  gopkg_number ds = true ->
  module.SplitPathVersion (p +:+ ".v" +:+ ds) = (p, ".v" +:+ ds, true).
Proof.
  intros Hp Hds. destruct (gopkg_number_inv ds Hds) as (Hd & d & ds' & Eds & Hzero).
  assert (ds <> "") as Hne by (subst ds; discriminate).
  unfold module.SplitPathVersion, module.splitGopkgIn.
  rewrite (HasPrefix_app_l p "gopkg.in/" _ Hp). simpl negb. cbv iota.
  replace (HasSuffix (p +:+ ".v" +:+ ds) "-unstable") with false
    by (rewrite <- (app_assoc p ".v" ds); symmetry;
        apply HasSuffix_unstable_digits; assumption).
  assert (module.scan_back false (p +:+ ".v" +:+ ds)
            (Z.to_nat (len (p +:+ ".v" +:+ ds))) false
          = (String.length (p +:+ ".v"), false)) as ->.
  { unfold len. rewrite Nat2Z.id.
    rewrite <- (app_assoc p ".v" ds), (length_app (p +:+ ".v") ds).
    rewrite (scan_back_digits false (p +:+ ".v") ds false _ Hd (Nat.le_refl _)).
    apply (scan_back_at_v false p ds false "."). }
  cbn [fst].
  assert (Z.of_nat (String.length (p +:+ ".v")) = len p + 2) as ->.
  { rewrite length_app. unfold len. simpl String.length. lia. }
  pose proof (len_nonneg p) as Hlp.
  assert (0 < len ds) as Hlds by (subst ds; unfold len; simpl String.length; lia).
  assert ((len p + 2 <=? 1) = false) as -> by (apply Z.leb_gt; lia).
  replace (len p + 2 - 1) with (len p + Z.of_nat 1) by lia.
  replace (len p + 2 - 2) with (len p + Z.of_nat 0) by lia.
  rewrite !at_app_r. simpl orb.
  replace (len p + Z.of_nat 0) with (len p) by lia.
  rewrite slice_to_app, slice_from_app.
  assert ((len (".v" +:+ ds) <=? 2) = false) as ->.
  { apply Z.leb_gt. rewrite len_app. change (len ".v") with 2. lia. }
  assert (Ascii.eqb (at_ (".v" +:+ ds) 2) "0"%char
          && negb (String.eqb (".v" +:+ ds) ".v0") = false) as ->.
  { destruct Hzero as [-> | Hd0]; [reflexivity|].
    subst ds. change (at_ (".v" +:+ String d ds') 2) with d. rewrite Hd0. reflexivity. }
  reflexivity.
Qed.

Lemma JoinPathMajor_gopkg (p ds : string) :
  HasPrefix p "gopkg.in/" = true ->
  JoinPathMajor p ("v" +:+ ds) = p +:+ ".v" +:+ ds
  /\ JoinPathMajor p (".v" +:+ ds) = p +:+ ".v" +:+ ds.
Proof.
  intros Hp. assert (HasPrefix p "gopkg.in" = true) as Hg.
  { apply HasPrefix_inv in Hp as [r ->].
    change "gopkg.in/" with ("gopkg.in" +:+ "/"). rewrite app_assoc. apply HasPrefix_app. }
  unfold JoinPathMajor. rewrite Hg. split; reflexivity.
Qed.

(** X29.  Decomposition undoes encoding under the gopkg.in convention
    too: a package path made of the encoded module path [prefix.vN] and
    a sub-path is found to belong to that module path. *)
Theorem FindModPath_JoinPathMajor_gopkg (pkg : Package) (ds sub : string) :
  HasPrefix (ModPrefix pkg) "gopkg.in/" = true ->
  gopkg_number ds = true ->
  sub = "" \/ HasPrefix sub "/" = true ->
  FindModPath pkg (JoinPathMajor (ModPrefix pkg) ("v" +:+ ds) +:+ sub)
  = (JoinPathMajor (ModPrefix pkg) ("v" +:+ ds), true).
Proof.
  intros Hp Hds Hsub.
  destruct (gopkg_number_inv ds Hds) as (Hd & _).
  destruct (JoinPathMajor_gopkg (ModPrefix pkg) ds Hp) as [Ev Edot].
  rewrite Ev.
  replace ((ModPrefix pkg +:+ ".v" +:+ ds) +:+ sub)
    with (ModPrefix pkg +:+ (".v" +:+ ds) +:+ sub)
    by (rewrite !app_assoc; reflexivity).
  rewrite (FindModPath_continued pkg (".v" +:+ ds) sub); [| reflexivity | | exact Hsub].
  - rewrite (SplitPathVersion_gopkg _ ds Hp Hds), Edot. reflexivity.
  - change (".v" +:+ ds) with (String "." (String "v" ds)).
    rewrite !Contains_byte_cons, (digits_no_byte "/" ds eq_refl Hd). reflexivity.
Qed.

Lemma FindModPath_JoinPathMajor_gopkg_witness :
  FindModPath (mkPackage "" "" "gopkg.in/yaml")
    (JoinPathMajor "gopkg.in/yaml" ("v" +:+ "3") +:+ "/internal")
  = (JoinPathMajor "gopkg.in/yaml" ("v" +:+ "3"), true).
Proof.
  apply (FindModPath_JoinPathMajor_gopkg (mkPackage "" "" "gopkg.in/yaml") "3" "/internal");
    try reflexivity.
  right. reflexivity.
Defined.

End GopkgPaths.

(** ** The major token with and without its delimiter *)

Section TokenDelimiter.
Import strings packages.

(** C9.  The major token (["v2"], ["v3"], ...: a token that starts with
    [v]) may be given with or without the leading delimiter of the
    path's convention: on a path with prefix ["gopkg.in"] the token with
    a dot in front is encoded as the token alone, and on every other
    path so is the token with a slash in front. *)
Theorem JoinPathMajor_token_delimiter (path token : string) :
  HasPrefix token "v" = true ->
  (HasPrefix path "gopkg.in" = true ->
   JoinPathMajor path ("." +:+ token) = JoinPathMajor path token)
  /\ (HasPrefix path "gopkg.in" = false ->
      JoinPathMajor path ("/" +:+ token) = JoinPathMajor path token).
Proof.
  intros Hv. apply HasPrefix_inv in Hv as [r ->].
  unfold JoinPathMajor. split; intros ->.
  - rewrite TrimPrefix_app, (TrimPrefix_absent ("v" +:+ r) "." eq_refl). reflexivity.
  - rewrite TrimPrefix_app, (TrimPrefix_absent ("v" +:+ r) "/" eq_refl). reflexivity.
Qed.

Lemma JoinPathMajor_token_delimiter_witness :
  JoinPathMajor "gopkg.in/yaml" ("." +:+ "v2") = JoinPathMajor "gopkg.in/yaml" "v2"
  /\ JoinPathMajor "github.com/pkg/errors" ("/" +:+ "v3")
     = JoinPathMajor "github.com/pkg/errors" "v3".
Proof.
  split.
  - apply (JoinPathMajor_token_delimiter "gopkg.in/yaml" "v2"); reflexivity.
  - apply (JoinPathMajor_token_delimiter "github.com/pkg/errors" "v3"); reflexivity.
Defined.

End TokenDelimiter.

(** ** A failed lookup in [listcmd] *)

Section ListFailure.
Context (W : World).

Lemma elem_of_concat_map_2 {A B} (f : A -> list B) (l : list A) (x : A) (y : B) :
  x ∈ l -> y ∈ f x -> y ∈ concat (map f l).
Proof.
  intros Hx Hy. induction l as [|x' l IH]; [inversion Hx|]. simpl.
  apply elem_of_app. apply elem_of_cons in Hx as [->|Hx]; [left; exact Hy|right; auto].
Qed.

(** C8.  Once the dependencies are enumerated, [listcmd] has a run, and
    every run returns nil, whatever lookups fail.  In every run each
    dependency that is not private is processed: if its lookup fails,
    its "failed" line is on standard error, and if its lookup succeeds
    and finds a newer version, its "latest" line is on standard output,
    whatever happens to the other dependencies.  Nothing else is
    written: every line is one of these, for a dependency of the list
    that is not private, and there are no more lines than
    dependencies. *)
Theorem listcmd_lookup_failure_isolated (fl : ListFlags) (deps : list Dependency) :
  Direct W (list_dir fl) = inr deps ->
  (exists run, listcmd W fl run)
  /\ forall run, listcmd W fl run ->
       returned run = None
       /\ (forall dep,
             dep ∈ deps ->
             MatchPrefixPatterns W (Getenv W "GOPRIVATE") (dep_Path dep) = false ->
             match Latest W (dep_Path dep) (list_cached fl) with
             | inl err =>
                 Stderr (dep_Path dep +:+ ": failed: " +:+ error_msg err) ∈ trace run
             | inr m =>
                 (list_major fl = false
                  \/ 0 < Compare W (semver.Major (MaxVersion W m "" (list_pre fl)))
                           (semver.Major (dep_Version dep))) ->
                 0 < Compare W (MaxVersion W m "" (list_pre fl)) (dep_Version dep) ->
                 Stdout (dep_Path dep +:+ ": " +:+ dep_Version dep +:+ " [latest "
                         +:+ MaxVersion W m "" (list_pre fl) +:+ "]") ∈ trace run
             end)
       /\ (forall ev,
             ev ∈ trace run ->
             exists dep,
               dep ∈ deps
               /\ MatchPrefixPatterns W (Getenv W "GOPRIVATE") (dep_Path dep) = false
               /\ ((exists err,
                      Latest W (dep_Path dep) (list_cached fl) = inl err
                      /\ ev = Stderr (dep_Path dep +:+ ": failed: " +:+ error_msg err))
                   \/ (exists m,
                         Latest W (dep_Path dep) (list_cached fl) = inr m
                         /\ ev = Stdout (dep_Path dep +:+ ": " +:+ dep_Version dep
                                         +:+ " [latest "
                                         +:+ MaxVersion W m "" (list_pre fl) +:+ "]"))))
       /\ (length (trace run) <= length deps)%nat.
Proof.
  intros Hdeps. split.
  { exists (group_run W fl (list_started W deps)).
    apply (listcmd_group W fl deps); [exact Hdeps|reflexivity]. }
  intros run Hrun.
  destruct (listcmd_runs W fl deps run Hdeps Hrun) as (finished & Hperm & ->).
  unfold trace, returned. cbn [fst snd].
  split; [reflexivity|]. split; [|split].
  - intros dep Hin Hpriv.
    assert (dep ∈ finished) as Hfin.
    { rewrite Hperm. apply list_elem_of_filter. split; assumption. }
    destruct (Latest W (dep_Path dep) (list_cached fl)) as [err|m] eqn:Hl.
    + apply (elem_of_concat_map_2 _ finished dep); [exact Hfin|].
      unfold list_task. rewrite Hl. apply list_elem_of_singleton. reflexivity.
    + intros Hmaj Hnew.
      apply (elem_of_concat_map_2 _ finished dep); [exact Hfin|].
      unfold list_task. rewrite Hl. cbn zeta.
      assert (list_major fl
              && (Compare W (semver.Major (MaxVersion W m "" (list_pre fl)))
                    (semver.Major (dep_Version dep)) <=? 0) = false) as ->.
      { destruct Hmaj as [-> | Hgt]; [reflexivity|].
        apply andb_false_intro2, Z.leb_gt. exact Hgt. }
      assert ((Compare W (MaxVersion W m "" (list_pre fl)) (dep_Version dep) <=? 0) = false)
        as -> by (apply Z.leb_gt; exact Hnew).
      apply list_elem_of_singleton. reflexivity.
  - intros ev Hev. apply elem_of_concat_map in Hev as (dep & Hfin & Hev).
    rewrite Hperm in Hfin. apply list_elem_of_filter in Hfin as [Hpriv Hin].
    exists dep. split; [exact Hin|]. split; [exact Hpriv|].
    unfold list_task in Hev.
    destruct (Latest W (dep_Path dep) (list_cached fl)) as [err|m].
    + left. exists err. split; [reflexivity|].
      apply list_elem_of_singleton in Hev. exact Hev.
    + right. exists m. split; [reflexivity|]. cbn zeta in Hev.
      destruct (list_major fl && _); [inversion Hev|].
      destruct (Compare W _ _ <=? 0); [inversion Hev|].
      apply list_elem_of_singleton in Hev. exact Hev.
  - rewrite <- (length_filter
                  (fun dep => MatchPrefixPatterns W (Getenv W "GOPRIVATE") (dep_Path dep) = false)
                  deps).
    change (filter _ deps) with (list_started W deps).
    rewrite <- (Permutation_length Hperm).
    apply concat_map_length. intros dep. apply list_task_length.
Qed.

End ListFailure.

Lemma listcmd_lookup_failure_isolated_witness :
  (exists run, listcmd sample_world sample_list_flags run)
  /\ Stderr "example.com/gone: failed: 404 Not Found"
       ∈ trace (group_run sample_world sample_list_flags
                  [mkDep "example.com/lib" "v1.4.0"; mkDep "example.com/gone" "v1.0.0"])
  /\ Stdout "example.com/lib: v1.4.0 [latest v2.3.1]"
       ∈ trace (group_run sample_world sample_list_flags
                  [mkDep "example.com/lib" "v1.4.0"; mkDep "example.com/gone" "v1.0.0"]).
Proof.
  destruct (listcmd_lookup_failure_isolated sample_world sample_list_flags
              [mkDep "example.com/gone" "v1.0.0"; mkDep "example.com/lib" "v1.4.0"] eq_refl)
    as [Hrun Hall].
  destruct (Hall _ sample_listcmd_reversed) as (_ & Hproc & _).
  split; [exact Hrun|]. split.
  - apply (Hproc (mkDep "example.com/gone" "v1.0.0")); [left|reflexivity].
  - apply (Hproc (mkDep "example.com/lib" "v1.4.0")); [right; left|reflexivity| |reflexivity].
    left. reflexivity.
Defined.
